(** * Molecule_Generation: the VAE-GNN notebook [gnn_vae.ipynb]

    A shallow embedding of the notebook's Python code.

    - Tensors are a shape and a flat row-major list of entries, the way
      torch stores a contiguous tensor.  Float entries are modelled as real
      numbers ([R]) wherever shapes, exceptions, the use of the random
      generator and exact formulas are concerned: rounding, infinities and
      NaN are outside that model.  The sampling step, whose result depends
      on overflow, is embedded a second time on IEEE 754 binary32 entries.
      Integer ([torch.long]) entries are [Z].
    - A Python exception is the [Raise] branch of [res].
    - The torch random generator is an explicit state threaded through every
      operation that draws from it ([Dropout] in training mode,
      [torch.randn], [torch.randn_like]).
    - The library operations the notebook calls ([nn.Linear], [view],
      [index_select], [softmax], [LayerNorm], broadcasting, the
      [MessagePassing.propagate] driver of torch_geometric) are modelled with
      their shape checks, so that a shape error of the code is a [Raise] of
      the model. *)

From Stdlib Require Import String List ZArith Reals Lia Lra Bool Arith SpecFloat.
Import ListNotations.

Set Implicit Arguments.

(** ** Python exceptions and results *)

Inductive exn : Type :=
| RuntimeError
| ValueError
| IndexError
| TypeError.

Inductive res (A : Type) : Type :=
| Ok (a : A)
| Raise (e : exn).

Arguments Ok {A} a.
Arguments Raise {A} e.

Definition res_bind {A B} (r : res A) (k : A -> res B) : res B :=
  match r with
  | Ok a => k a
  | Raise e => Raise e
  end.

Definition is_ok {A} (r : res A) : bool :=
  match r with Ok _ => true | Raise _ => false end.

Declare Scope res_scope.
Delimit Scope res_scope with res.
Notation "'let?' x ':=' r 'in' k" := (res_bind r (fun x => k))
  (at level 10, x name, r at level 100, k at level 200) : res_scope.

(** ** Tensors *)

Record tensor (A : Type) : Type := mkT {
  shape : list nat;
  data : list A
}.

Arguments mkT {A} shape data.

Definition numel (sh : list nat) : nat := fold_right Nat.mul 1 sh.

Definition rank {A} (t : tensor A) : nat := length (shape t).

(** A tensor is well formed when its storage has one entry per index. *)
Definition wfT {A} (t : tensor A) : Prop :=
  length (data t) = numel (shape t).

(** Row-major offset of a multi-index, and its inverse. *)
Fixpoint ravel (sh idx : list nat) : nat :=
  match sh, idx with
  | _ :: ds, i :: is' => i * numel ds + ravel ds is'
  | _, _ => 0
  end.

Fixpoint unravel (sh : list nat) (k : nat) : list nat :=
  match sh with
  | [] => []
  | _ :: ds => (k / numel ds) :: unravel ds (k mod numel ds)
  end.

Fixpoint in_rangeb (sh idx : list nat) : bool :=
  match sh, idx with
  | [], [] => true
  | d :: ds, i :: is' => (i <? d) && in_rangeb ds is'
  | _, _ => false
  end.

Definition get {A} (d : A) (t : tensor A) (idx : list nat) : A :=
  nth (ravel (shape t) idx) (data t) d.

(** The tensor of shape [sh] whose entry at [idx] is [f idx]. *)
Definition tabulate {A} (sh : list nat) (f : list nat -> A) : tensor A :=
  mkT sh (map (fun k => f (unravel sh k)) (seq 0 (numel sh))).

Definition tmap {A B} (f : A -> B) (t : tensor A) : tensor B :=
  mkT (shape t) (map f (data t)).

(** [idx] with its [n]-th component replaced by [v]. *)
Fixpoint set_nth (n v : nat) (idx : list nat) : list nat :=
  match idx, n with
  | [], _ => []
  | _ :: is', O => v :: is'
  | i :: is', S n' => i :: set_nth n' v is'
  end.

(** A Python dimension argument, negative values counting from the end. *)
Definition norm_dim (rk : nat) (dim : Z) : res nat :=
  let d := if (dim <? 0)%Z then (Z.of_nat rk + dim)%Z else dim in
  if ((0 <=? d)%Z && (d <? Z.of_nat rk)%Z)%bool
  then Ok (Z.to_nat d) else Raise IndexError.

(** *** [torch.tensor] on a list of rows and [Tensor.t]

    [torch.tensor([])] has shape [[0]]; on a non-empty list of rows of one
    length [c] it has shape [[n; c]]; ragged rows are a [ValueError]. *)
Definition tensor_of_rows {A} (rows : list (list A)) : res (tensor A) :=
  match rows with
  | [] => Ok (mkT [0] [])
  | r :: _ =>
      if forallb (fun r' => length r' =? length r) rows
      then Ok (mkT [length rows; length r] (concat rows))
      else Raise ValueError
  end.

(** [t()] transposes a 2-D tensor, returns a 0-D or 1-D tensor as it is and
    refuses more dimensions. *)
Definition transpose {A} (d : A) (t : tensor A) : res (tensor A) :=
  match shape t with
  | [] | [_] => Ok t
  | [r; c] =>
      Ok (tabulate [c; r]
            (fun idx => get d t [nth 1 idx 0; nth 0 idx 0]))
  | _ => Raise RuntimeError
  end.

(** ** The random generator

    The state of torch's default generator: the outcome of its next draws,
    read as standard-normal samples ([torch.randn]) or as the keep/drop
    outcomes of [Dropout]'s Bernoulli mask, and the number of draws consumed
    so far. *)
Record Gen : Type := mkGen {
  normal_draw : nat -> R;
  keep_draw : nat -> bool;
  cursor : nat
}.

Definition advance (n : nat) (g : Gen) : Gen :=
  mkGen (normal_draw g) (keep_draw g) (cursor g + n).

(** Computations that may raise and may draw from the generator. *)
Definition M (A : Type) : Type := Gen -> res A * Gen.

Definition ret {A} (a : A) : M A := fun g => (Ok a, g).

Definition lift {A} (r : res A) : M A := fun g => (r, g).

Definition bind {A B} (c : M A) (k : A -> M B) : M B :=
  fun g =>
    match c g with
    | (Ok a, g') => k a g'
    | (Raise e, g') => (Raise e, g')
    end.

Declare Scope m_scope.
Delimit Scope m_scope with M.
Notation "'let*' x ':=' c 'in' k" := (bind c (fun x => k))
  (at level 10, x name, c at level 100, k at level 200) : m_scope.

(** [torch.randn] at the sizes [sh] and [torch.randn_like]. *)
Definition randn (sh : list nat) : M (tensor R) :=
  fun g =>
    (Ok (mkT sh (map (fun k => normal_draw g (cursor g + k))
                   (seq 0 (numel sh)))),
     advance (numel sh) g).

(** ** Tensor operations of torch *)

Definition rsum (l : list R) : R := fold_right Rplus 0%R l.

Fixpoint shape_eqb (a b : list nat) : bool :=
  match a, b with
  | [], [] => true
  | m :: a', n :: b' => (m =? n) && shape_eqb a' b'
  | _, _ => false
  end.

(** *** Broadcasting

    Shapes are aligned at their last dimension; two sizes are compatible
    when they are equal or one of them is 1. *)
Fixpoint broadcast_rev (a b : list nat) : option (list nat) :=
  match a, b with
  | [], _ => Some b
  | _, [] => Some a
  | m :: a', n :: b' =>
      match broadcast_rev a' b' with
      | Some r =>
          if m =? n then Some (m :: r)
          else if m =? 1 then Some (n :: r)
          else if n =? 1 then Some (m :: r)
          else None
      | None => None
      end
  end.

Definition broadcast_shapes (a b : list nat) : option (list nat) :=
  option_map (@rev nat) (broadcast_rev (rev a) (rev b)).

(** The index of an operand of shape [sh] that an index of the broadcast
    result reads. *)
Definition bidx (sh idx : list nat) : list nat :=
  map (fun di => if fst di =? 1 then 0 else snd di)
      (combine sh (skipn (length idx - length sh) idx)).

(** An elementwise binary operator ([+], [*], [-]) with broadcasting. *)
Definition binop (f : R -> R -> R) (a b : tensor R) : res (tensor R) :=
  match broadcast_shapes (shape a) (shape b) with
  | Some sh =>
      Ok (tabulate sh (fun idx =>
            f (get 0%R a (bidx (shape a) idx))
              (get 0%R b (bidx (shape b) idx))))
  | None => Raise RuntimeError
  end.

Definition add := binop Rplus.
Definition mul := binop Rmult.
Definition sub := binop Rminus.

(** [t.view(-1, ...)] with the remaining sizes [rest]: the first size is
    inferred from the number of entries, which must be a multiple of the
    product of [rest]; a zero in [rest] leaves it undetermined. *)
Definition view_infer {A} (t : tensor A) (rest : list nat) : res (tensor A) :=
  let n := numel (shape t) in
  let newsize := numel rest in
  if (0 <? newsize) && (n mod newsize =? 0)
  then Ok (mkT (n / newsize :: rest) (data t))
  else Raise RuntimeError.

(** [t[r]]: the [r]-th slice along the first dimension. *)
Definition select0 {A} (d : A) (t : tensor A) (r : nat) : res (tensor A) :=
  match shape t with
  | n :: rest =>
      if r <? n then Ok (tabulate rest (fun idx => get d t (r :: idx)))
      else Raise IndexError
  | [] => Raise IndexError
  end.

Definition index_okb (bound : nat) (index : tensor Z) : bool :=
  forallb (fun v => (0 <=? v)%Z && (v <? Z.of_nat bound)%Z) (data index).

(** [t.index_select(dim, index)] with a 1-D [index]. *)
Definition index_select (t : tensor R) (dim : nat) (index : tensor Z)
  : res (tensor R) :=
  match shape index with
  | [e] =>
      if dim <? rank t then
        if index_okb (nth dim (shape t) 0) index then
          Ok (tabulate (set_nth dim e (shape t)) (fun idx =>
                get 0%R t
                  (set_nth dim (Z.to_nat (get 0%Z index [nth dim idx 0])) idx)))
        else Raise IndexError
      else Raise IndexError
  | _ => Raise IndexError
  end.

(** [t.sum(dim=-1, keepdim=True)]. *)
Definition sum_last_keepdim (t : tensor R) : tensor R :=
  match rev (shape t) with
  | [] => t
  | d :: rinit =>
      tabulate (rev rinit ++ [1]) (fun idx =>
        rsum (map (fun k => get 0%R t (removelast idx ++ [k])) (seq 0 d)))
  end.

(** [torch.softmax(t, dim)].  torch subtracts the maximum along [dim] before
    exponentiating, which does not change the quotient over the reals. *)
Definition softmax (t : tensor R) (dim : nat) : res (tensor R) :=
  if dim <? rank t then
    Ok (tabulate (shape t) (fun idx =>
          Rdiv (exp (get 0%R t idx))
               (rsum (map (fun k => exp (get 0%R t (set_nth dim k idx)))
                        (seq 0 (nth dim (shape t) 0))))))
  else Raise IndexError.

(** The [sum] reduction of torch_geometric's [scatter]: a tensor of zeros
    with [dim_size] slots along [dim], to which the [e]-th slice of [src] is
    added at slot [index[e]]. *)
Definition scatter_sum (src : tensor R) (index : tensor Z) (dim dim_size : nat)
  : res (tensor R) :=
  match shape index with
  | [e] =>
      if (dim <? rank src) && (e =? nth dim (shape src) 0)
         && index_okb dim_size index then
        Ok (tabulate (set_nth dim dim_size (shape src)) (fun idx =>
              rsum (map (fun k =>
                           if Z.eqb (get 0%Z index [k])
                                    (Z.of_nat (nth dim idx 0))
                           then get 0%R src (set_nth dim k idx)
                           else 0%R)
                      (seq 0 e))))
      else Raise RuntimeError
  | _ => Raise RuntimeError
  end.

(** *** [nn.Linear] *)
Record Linear : Type := mkLinear {
  weight : tensor R;   (* out_features x in_features *)
  bias : tensor R      (* out_features *)
}.

Definition out_features (l : Linear) : nat := nth 0 (shape (weight l)) 0.
Definition in_features (l : Linear) : nat := nth 1 (shape (weight l)) 0.

(** [nn.Linear(in_features, out_features)]; the initial parameter values,
    which torch draws at random, are given by [w] and [b]. *)
Definition Linear_init (in_f out_f : nat) (w : nat -> nat -> R) (b : nat -> R)
  : Linear :=
  mkLinear
    (tabulate [out_f; in_f] (fun idx => w (nth 0 idx 0) (nth 1 idx 0)))
    (tabulate [out_f] (fun idx => b (nth 0 idx 0))).

(** [l(x)]: [x @ weight.T + bias] over the last dimension of [x]. *)
Definition linear (l : Linear) (x : tensor R) : res (tensor R) :=
  match shape (weight l), rev (shape x) with
  | [o; i], d :: rinit =>
      if (d =? i) && shape_eqb (shape (bias l)) [o] then
        Ok (tabulate (rev rinit ++ [o]) (fun idx =>
              Rplus
                (rsum (map (fun k =>
                              Rmult (get 0%R x (removelast idx ++ [k]))
                                    (get 0%R (weight l) [last idx 0; k]))
                         (seq 0 i)))
                (get 0%R (bias l) [last idx 0])))
      else Raise RuntimeError
  | _, _ => Raise RuntimeError
  end.

(** *** [nn.LayerNorm] over the last dimension *)
Record LayerNorm : Type := mkLayerNorm {
  normalized_shape : nat;
  ln_weight : tensor R;
  ln_bias : tensor R;
  ln_eps : R
}.

(** [nn.LayerNorm(n)]: weight ones, bias zeros, [eps = 1e-5]. *)
Definition LayerNorm_init (n : nat) : LayerNorm :=
  mkLayerNorm n (tabulate [n] (fun _ => 1%R)) (tabulate [n] (fun _ => 0%R))
    (1 / 100000)%R.

Definition layer_norm (n : LayerNorm) (x : tensor R) : res (tensor R) :=
  match rev (shape x) with
  | d :: _ =>
      if d =? normalized_shape n then
        Ok (tabulate (shape x) (fun idx =>
              let row := fun k => get 0%R x (removelast idx ++ [k]) in
              let mean := Rdiv (rsum (map row (seq 0 d))) (INR d) in
              let var :=
                Rdiv (rsum (map (fun k => (row k - mean) * (row k - mean))%R
                              (seq 0 d)))
                     (INR d) in
              let gamma := get 0%R (ln_weight n) [last idx 0] in
              let beta := get 0%R (ln_bias n) [last idx 0] in
              ((get 0%R x idx - mean) / sqrt (var + ln_eps n) * gamma
               + beta)%R))
      else Raise RuntimeError
  | [] => Raise RuntimeError
  end.

(** *** [nn.Dropout]

    In evaluation mode, on a tensor without entries and with [p = 0] the
    input is returned; with [p = 1] it is multiplied by zero; in none of
    these cases is anything drawn.  Otherwise one Bernoulli outcome is drawn
    per entry, a kept entry is scaled by [1 / (1 - p)] and a dropped one is
    zero. *)
Definition Reqb (a b : R) : bool := if Req_dec_T a b then true else false.

Definition dropout (p : R) (training : bool) (t : tensor R) : M (tensor R) :=
  if negb training || (numel (shape t) =? 0) || Reqb p 0 then ret t
  else if Reqb p 1 then ret (tmap (fun v => v * 0)%R t)
  else
    fun g =>
      (Ok (mkT (shape t)
             (map (fun k => if keep_draw g (cursor g + k)
                            then (nth k (data t) 0%R / (1 - p))%R else 0%R)
                (seq 0 (numel (shape t))))),
       advance (numel (shape t)) g).

(** ** Graph network layer: [class GraphVAE(MessagePassing)] *)

Record GraphVAE : Type := mkGraphVAE {
  heads : nat;
  out_channels : nat;
  lin_q : Linear;
  lin_k : Linear;
  lin_v : Linear;
  lin_out : Linear;
  dropout_p : R;
  norm : LayerNorm;
  (** the mode flag of the module and of its [Dropout] child, set together
      by [train()] and [eval()] *)
  training : bool;
  (** set by [MessagePassing.__init__]: the axis along which [propagate]
      gathers and scatters *)
  node_dim : Z
}.

(** The initial values of the four linear maps of a layer. *)
Record LayerInit : Type := mkLayerInit {
  wq : nat -> nat -> R; bq : nat -> R;
  wk : nat -> nat -> R; bk : nat -> R;
  wv : nat -> nat -> R; bv : nat -> R;
  wo : nat -> nat -> R; bo : nat -> R
}.

(** [GraphVAE.__init__(in_channels, out_channels, heads, dropout)].
    [super().__init__(aggr='add')] passes no [node_dim], so the layer keeps
    torch_geometric's default [node_dim = -2]; a fresh module is in training
    mode. *)
Definition GraphVAE_init (in_channels out_channels heads : nat) (dropout : R)
    (w : LayerInit) : GraphVAE :=
  mkGraphVAE heads out_channels
    (Linear_init in_channels (heads * out_channels) (wq w) (bq w))
    (Linear_init in_channels (heads * out_channels) (wk w) (bk w))
    (Linear_init in_channels (heads * out_channels) (wv w) (bv w))
    (Linear_init (heads * out_channels) out_channels (wo w) (bo w))
    dropout
    (LayerNorm_init out_channels)
    true
    (-2)%Z.

Definition default_heads : nat := 4.
Definition default_dropout : R := (1 / 10)%R.

Definition GraphVAE_set_training (b : bool) (l : GraphVAE) : GraphVAE :=
  mkGraphVAE (heads l) (out_channels l) (lin_q l) (lin_k l) (lin_v l)
    (lin_out l) (dropout_p l) (norm l) b (node_dim l).

(** [GraphVAE.message(Q_i, K_j, V_j)]. *)
Definition message (l : GraphVAE) (Q_i K_j V_j : tensor R) : M (tensor R) :=
  (let* qk := lift (mul Q_i K_j) in
   let score :=
     tmap (fun s => s / sqrt (INR (out_channels l)))%R
          (sum_last_keepdim qk) in
   let* score := lift (softmax score 1) in
   let* score := dropout (dropout_p l) (training l) score in
   lift (mul score V_j))%M.

(** [MessagePassing.propagate(edge_index, Q=Q, K=K, V=V)] for a dense
    [edge_index] and the flow [source_to_target]: it checks that
    [edge_index] is [2 x E] (a [ValueError] in current releases of
    torch_geometric, a failed assertion in older ones), gathers [Q_i] at the
    targets [edge_index[1]] and [K_j], [V_j] at the sources [edge_index[0]]
    with [index_select] along [node_dim], calls [message], and adds the
    messages up per target along [node_dim] into as many slots as [Q] has
    along [node_dim]. *)
Definition propagate (l : GraphVAE) (edge_index : tensor Z)
    (Q K V : tensor R) : M (tensor R) :=
  match shape edge_index with
  | [2; _] =>
      (let* dst := lift (select0 0%Z edge_index 1) in
       let* src := lift (select0 0%Z edge_index 0) in
       let* dq := lift (norm_dim (rank Q) (node_dim l)) in
       let size_i := nth dq (shape Q) 0 in
       let* Q_i := lift (index_select Q dq dst) in
       let* dk := lift (norm_dim (rank K) (node_dim l)) in
       let size_j := nth dk (shape K) 0 in
       let* K_j := lift (index_select K dk src) in
       let* dv := lift (norm_dim (rank V) (node_dim l)) in
       if negb (nth dv (shape V) 0 =? size_j) then lift (Raise ValueError)
       else
         let* V_j := lift (index_select V dv src) in
         let* msg := message l Q_i K_j V_j in
         let* dm := lift (norm_dim (rank msg) (node_dim l)) in
         lift (scatter_sum msg dst dm size_i))%M
  | _ => lift (Raise ValueError)
  end.

(** [GraphVAE.forward(x, edge_index)]. *)
Definition GraphVAE_forward (l : GraphVAE) (x : tensor R)
    (edge_index : tensor Z) : M (tensor R) :=
  (let* q := lift (linear (lin_q l) x) in
   let* Q := lift (view_infer q [heads l; out_channels l]) in
   let* k := lift (linear (lin_k l) x) in
   let* K := lift (view_infer k [heads l; out_channels l]) in
   let* v := lift (linear (lin_v l) x) in
   let* V := lift (view_infer v [heads l; out_channels l]) in
   let* out := propagate l edge_index Q K V in
   let* out := lift (view_infer out [heads l * out_channels l]) in
   let* out := lift (linear (lin_out l) out) in
   let* out := lift (add out x) in
   lift (layer_norm (norm l) out))%M.

(** ** Data preparation: [mol_to_graph] *)

(** What the code reads off an RDKit molecule: the atoms in index order with
    their atomic numbers, and the bonds with their two atom indices. *)
Record Atom : Type := mkAtom { GetAtomicNum : Z }.

Record Bond : Type := mkBond {
  GetBeginAtomIdx : nat;
  GetEndAtomIdx : nat
}.

Record Mol : Type := mkMol {
  GetAtoms : list Atom;
  GetBonds : list Bond
}.

(** RDKit only builds bonds between atoms of the molecule. *)
Definition wf_mol (m : Mol) : Prop :=
  Forall (fun b => GetBeginAtomIdx b < length (GetAtoms m)
                   /\ GetEndAtomIdx b < length (GetAtoms m)) (GetBonds m).

(** torch_geometric's [Data(x=..., edge_index=...)]. *)
Module Data.
Record t : Type := mk {
  x : tensor R;
  edge_index : tensor Z
}.
End Data.

(** The two loops of [mol_to_graph]: the Python lists before they are turned
    into tensors. *)
Definition node_rows (m : Mol) : list (list Z) :=
  map (fun atom => [GetAtomicNum atom]) (GetAtoms m).

Fixpoint edge_rows (bonds : list Bond) : list (list Z) :=
  match bonds with
  | [] => []
  | bond :: rest =>
      let i := Z.of_nat (GetBeginAtomIdx bond) in
      let j := Z.of_nat (GetEndAtomIdx bond) in
      [i; j] :: [j; i] :: edge_rows rest
  end.

Definition row_of_pair (p : Z * Z) : list Z := [fst p; snd p].

(** The same list as pairs (source, target). *)
Definition edge_pairs (bonds : list Bond) : list (Z * Z) :=
  flat_map (fun bond =>
              let i := Z.of_nat (GetBeginAtomIdx bond) in
              let j := Z.of_nat (GetEndAtomIdx bond) in
              [(i, j); (j, i)]) bonds.

Definition mol_to_graph (mol : Mol) : res Data.t :=
  (let? e := tensor_of_rows (edge_rows (GetBonds mol)) in
   let? edge_index := transpose 0%Z e in
   let? xz := tensor_of_rows (node_rows mol) in
   Ok (Data.mk (tmap IZR xz) edge_index))%res.

(** The directed edges a [Data] object carries: the columns of a [2 x E]
    [edge_index]; a tensor without entries carries none. *)
Definition edges_of (ei : tensor Z) : list (Z * Z) :=
  match shape ei with
  | [2; e] =>
      map (fun c => (get 0%Z ei [0; c], get 0%Z ei [1; c])) (seq 0 e)
  | _ => []
  end.

Definition edges (g : Data.t) : list (Z * Z) := edges_of (Data.edge_index g).

(** The number of nodes is the number of rows of [x]. *)
Definition num_nodes (g : Data.t) : nat := nth 0 (shape (Data.x g)) 0.

(** ** Molecule generator: [class VAE_GNN(nn.Module)] *)

Record VAE_GNN : Type := mkVAE_GNN {
  layers : list GraphVAE;
  fc_mu : Linear;
  fc_logvar : Linear;
  fc_decode : Linear;
  fc_out : Linear;
  vae_training : bool
}.

(** The initial values of one [nn.Linear]. *)
Record LinearInit : Type := mkLinearInit {
  w_init : nat -> nat -> R;
  b_init : nat -> R
}.

(** The loop of [VAE_GNN.__init__]: the first layer maps [in_channels] to
    [hidden_channels], the following ones [hidden_channels] to itself. *)
Fixpoint make_layers (num_layers in_channels hidden_channels : nat)
    (w : nat -> LayerInit) : list GraphVAE :=
  match num_layers with
  | O => []
  | S n =>
      GraphVAE_init in_channels hidden_channels default_heads default_dropout
        (w O)
      :: make_layers n hidden_channels hidden_channels (fun k => w (S k))
  end.

Definition VAE_GNN_init (in_channels hidden_channels latent_dim num_layers : nat)
    (w : nat -> LayerInit) (wmu wlogvar wdecode wout : LinearInit) : VAE_GNN :=
  mkVAE_GNN
    (make_layers num_layers in_channels hidden_channels w)
    (Linear_init hidden_channels latent_dim (w_init wmu) (b_init wmu))
    (Linear_init hidden_channels latent_dim (w_init wlogvar) (b_init wlogvar))
    (Linear_init latent_dim hidden_channels (w_init wdecode) (b_init wdecode))
    (Linear_init hidden_channels 1 (w_init wout) (b_init wout))
    true.

Definition default_latent_dim : nat := 16.
Definition default_num_layers : nat := 4.

(** [model.train(mode)] sets the flag of the module and of all its
    children; [model.eval()] is [model.train(False)]. *)
Definition VAE_GNN_train (mode : bool) (m : VAE_GNN) : VAE_GNN :=
  mkVAE_GNN (map (GraphVAE_set_training mode) (layers m))
    (fc_mu m) (fc_logvar m) (fc_decode m) (fc_out m) mode.

Definition VAE_GNN_eval : VAE_GNN -> VAE_GNN := VAE_GNN_train false.

(** [model.parameters()]: every weight and bias tensor, in registration
    order. *)
Definition Linear_parameters (l : Linear) : list (tensor R) :=
  [weight l; bias l].

Definition GraphVAE_parameters (l : GraphVAE) : list (tensor R) :=
  Linear_parameters (lin_q l) ++ Linear_parameters (lin_k l)
  ++ Linear_parameters (lin_v l) ++ Linear_parameters (lin_out l)
  ++ [ln_weight (norm l); ln_bias (norm l)].

Definition parameters (m : VAE_GNN) : list (tensor R) :=
  flat_map GraphVAE_parameters (layers m)
  ++ Linear_parameters (fc_mu m) ++ Linear_parameters (fc_logvar m)
  ++ Linear_parameters (fc_decode m) ++ Linear_parameters (fc_out m).

(** The [for layer in self.layers] loop of [encode]. *)
Fixpoint apply_layers (ls : list GraphVAE) (x : tensor R)
    (edge_index : tensor Z) : M (tensor R) :=
  match ls with
  | [] => ret x
  | layer :: rest =>
      (let* x' := GraphVAE_forward layer x edge_index in
       apply_layers rest x' edge_index)%M
  end.

(** [VAE_GNN.encode(x, edge_index)]. *)
Definition encode (m : VAE_GNN) (x : tensor R) (edge_index : tensor Z)
  : M (tensor R * tensor R) :=
  (let* h := apply_layers (layers m) x edge_index in
   let* mu := lift (linear (fc_mu m) h) in
   let* logvar := lift (linear (fc_logvar m) h) in
   ret (mu, logvar))%M.

(** [VAE_GNN.reparameterize(mu, logvar)]. *)
Definition reparameterize (mu logvar : tensor R) : M (tensor R) :=
  let std := tmap (fun v => exp (0.5 * v))%R logvar in
  (let* eps := randn (shape std) in
   let* es := lift (mul eps std) in
   lift (add mu es))%M.

Definition relu (v : R) : R := Rmax 0 v.

(** [VAE_GNN.decode(z)]. *)
Definition decode (m : VAE_GNN) (z : tensor R) : res (tensor R) :=
  (let? h := linear (fc_decode m) z in
   let h := tmap relu h in
   linear (fc_out m) h)%res.

(** The Python values the modelled functions return or receive:
    [None], integers, strings and float tensors. *)
Inductive pyval : Type :=
| PyNone
| PyInt (n : Z)
| PyStr (s : string)
| PyTensor (t : tensor R).

(** [VAE_GNN.forward(x, edge_index)]: the body ends after the assignment to
    [out], so a call that gets there evaluates to [None]. *)
Definition VAE_GNN_forward (m : VAE_GNN) (x : tensor R)
    (edge_index : tensor Z) : M pyval :=
  (let* ml := encode m x edge_index in
   let* z := reparameterize (fst ml) (snd ml) in
   let* out := lift (decode m z) in
   ret PyNone)%M.

(** ** The sampling step at float32 precision

    torch computes [reparameterize] on float32 tensors.  Here its entries
    are IEEE 754 binary32 values ([spec_float] with a 24-bit significand and
    exponents up to 128): finite numbers, signed zeros, infinities and NaN,
    with the rounding, overflow and NaN rules of the standard for [+] and
    [*]. *)
Definition f32 : Type := spec_float.

Definition f32_add : f32 -> f32 -> f32 := SFadd 24 128.
Definition f32_mul : f32 -> f32 -> f32 := SFmul 24 128.

(** The float32 nearest to [m * 2^e], and to an integer. *)
Definition f32_of_Z2 (m e : Z) : f32 := binary_normalize 24 128 m e false.
Definition f32_of_Z (n : Z) : f32 := f32_of_Z2 n 0.

(** The Python scalar [0.5]. *)
Definition f32_half : f32 := f32_of_Z2 1 (-1).

Definition f32_zero : f32 := S754_zero false.

Definition is_zero32 (x : f32) : bool :=
  match x with S754_zero _ => true | _ => false end.

(** [torch.isfinite]. *)
Definition is_finite32 (x : f32) : bool :=
  match x with S754_zero _ | S754_finite _ _ _ => true | _ => false end.

(** Two entries that hold the same value: identical, or zeros that differ
    in sign only ([-0.0 == 0.0]). *)
Definition f32_same (x y : f32) : Prop :=
  x = y \/ (is_zero32 x = true /\ is_zero32 y = true).

Definition f32_eqb (x y : f32) : bool :=
  match x, y with
  | S754_zero s, S754_zero s' => Bool.eqb s s'
  | S754_infinity s, S754_infinity s' => Bool.eqb s s'
  | S754_nan, S754_nan => true
  | S754_finite s m e, S754_finite s' m' e' =>
      Bool.eqb s s' && Pos.eqb m m' && Z.eqb e e'
  | _, _ => false
  end.

(** *** [torch.exp] on a float32 entry

    [exp32] is the exponential rounded to the nearest float32, the function
    that torch's kernels compute up to the last bit of the result.  From 89
    up it overflows to [+inf], since [e^89 > 2^128], and down to -104 it
    underflows to [0], since [e^-104 < 2^-150].  For any other finite
    [x = +-a / 2^k] it sums the series of [exp |x|] over exact integers:
    after [M] terms, once [M + 1 >= 2 |x|], the value lies between [P / D]
    and [(P + A) / D], where [A / D] is the last term added, and the sum
    stops as soon as both ends round to the same float32.  The ends halve
    their distance with every further term. *)
Definition round_quotient (p q : Z) : f32 :=
  SFdiv 24 128 (S754_finite false (Z.to_pos p) 0)
               (S754_finite false (Z.to_pos q) 0).

Fixpoint exp_series (fuel : nat) (neg : bool) (a two_k M P D A : Z) : f32 :=
  match fuel with
  | O => S754_nan
  | S fuel' =>
      let M' := (M + 1)%Z in
      let A' := (A * a)%Z in
      let sc := (two_k * M')%Z in
      let P' := (P * sc + A')%Z in
      let D' := (D * sc)%Z in
      if (2 * a <=? (M' + 1) * two_k)%Z then
        let lo :=
          if neg then round_quotient D' (P' + A') else round_quotient P' D' in
        let hi :=
          if neg then round_quotient D' P' else round_quotient (P' + A') D' in
        if f32_eqb lo hi then lo
        else exp_series fuel' neg a two_k M' P' D' A'
      else exp_series fuel' neg a two_k M' P' D' A'
  end.

Definition exp32 (x : f32) : f32 :=
  match x with
  | S754_nan => S754_nan
  | S754_infinity false => S754_infinity false
  | S754_infinity true => S754_zero false
  | S754_zero _ => f32_of_Z 1
  | S754_finite s m e =>
      if SFleb (f32_of_Z 89) x then S754_infinity false
      else if SFleb x (f32_of_Z (-104)) then S754_zero false
      else
        let a := if (0 <=? e)%Z then (Zpos m * 2 ^ e)%Z else Zpos m in
        let two_k := if (0 <=? e)%Z then 1%Z else (2 ^ (- e))%Z in
        exp_series 1000 s a two_k 0 1 1 1
  end.

(** *** Tensors of float32 entries *)

(** The generator's next draws as the float32 values [torch.randn_like]
    returns, and the number of draws consumed. *)
Record Gen32 : Type := mkGen32 {
  normal_draw32 : nat -> f32;
  cursor32 : nat
}.

Definition advance32 (n : nat) (g : Gen32) : Gen32 :=
  mkGen32 (normal_draw32 g) (cursor32 g + n).

Definition randn32 (sh : list nat) (g : Gen32) : tensor f32 * Gen32 :=
  (mkT sh (map (fun k => normal_draw32 g (cursor32 g + k)) (seq 0 (numel sh))),
   advance32 (numel sh) g).

(** An elementwise binary operator with broadcasting, as [binop]. *)
Definition binop32 (f : f32 -> f32 -> f32) (a b : tensor f32)
  : res (tensor f32) :=
  match broadcast_shapes (shape a) (shape b) with
  | Some sh =>
      Ok (tabulate sh (fun idx =>
            f (get f32_zero a (bidx (shape a) idx))
              (get f32_zero b (bidx (shape b) idx))))
  | None => Raise RuntimeError
  end.

Section Reparameterize32.

(** The kernel behind [torch.exp] on float32 entries. *)
Variable expf : f32 -> f32.

(** [VAE_GNN.reparameterize(mu, logvar)] on float32 tensors. *)
Definition reparameterize32 (mu logvar : tensor f32) (g : Gen32)
  : res (tensor f32) * Gen32 :=
  let std := tmap expf (tmap (f32_mul f32_half) logvar) in
  let eps := randn32 (shape std) g in
  ((let? es := binop32 f32_mul (fst eps) std in
    binop32 f32_add mu es)%res,
   snd eps).

End Reparameterize32.

(** ** Training objective: [loss_function] *)

(** One term of [F.binary_cross_entropy_with_logits]:
    [-(t * log (sigmoid v) + (1 - t) * log (1 - sigmoid v))], which over the
    reals is [(1 - t) * v + log (1 + exp (- v))]. *)
Definition bce_logit (v t : R) : R := ((1 - t) * v + ln (1 + exp (- v)))%R.

(** [F.binary_cross_entropy_with_logits(input, target, reduction='sum')]:
    the two sizes must be equal. *)
Definition binary_cross_entropy_with_logits_sum (input target : tensor R)
  : res R :=
  if shape_eqb (shape target) (shape input)
  then Ok (rsum (map (fun it => bce_logit (fst it) (snd it))
                   (combine (data input) (data target))))
  else Raise ValueError.

(** [torch.sum(t)]. *)
Definition tsum (t : tensor R) : R := rsum (data t).

(** The local constant [β = 1.0] of [loss_function]. *)
Definition beta : R := 1%R.

(** The KL term: [-0.5 * torch.sum(1 + logvar - mu.pow(2) - logvar.exp())]. *)
Definition KL_term (mu logvar : tensor R) : res R :=
  (let? a := sub (tmap (fun v => 1 + v)%R logvar) (tmap (fun v => v * v)%R mu) in
   let? b := sub a (tmap exp logvar) in
   Ok (- 0.5 * tsum b)%R)%res.

Definition loss_function (recon_x x mu logvar : tensor R) : res R :=
  (let? BCE := binary_cross_entropy_with_logits_sum recon_x x in
   let? KL := KL_term mu logvar in
   Ok (BCE + beta * KL)%R)%res.

(** ** Inference: [generate_molecule] *)

(** The body of the [for _ in range(num_samples)] loop, [n] times. *)
Fixpoint sample_loop (model : VAE_GNN) (n : nat) (samples : list (tensor R))
  : M (list (tensor R)) :=
  match n with
  | O => ret samples
  | S n' =>
      (let* z := randn [1; out_features (fc_mu model)] in
       let* sampled_molecule := lift (decode model z) in
       sample_loop model n' (samples ++ [sampled_molecule]))%M
  end.

(** [generate_molecule(model, num_samples)].  The model object is mutable,
    so the function returns the model it leaves behind next to its result.
    [range] accepts an integer (a negative one gives no iteration) and
    raises [TypeError] on a string, on [None] and on a float tensor. *)
Definition generate_molecule (model : VAE_GNN) (num_samples : pyval) (g : Gen)
  : res (list (tensor R)) * VAE_GNN * Gen :=
  let model := VAE_GNN_eval model in
  match num_samples with
  | PyInt n =>
      let rg := sample_loop model (Z.to_nat n) [] g in
      (fst rg, model, snd rg)
  | _ => (Raise TypeError, model, g)
  end.

Definition default_num_samples : pyval := PyInt 5.

(** ** The attention layer as the specification words it

    Per head [h], the score of the edge [j -> i] is
    [(Q_i . K_j) / sqrt(D_out)]; the scores are normalised by a softmax over
    the incoming edges of the target node [i]; the aggregate of [i] is the
    sum over its incoming edges of the normalised score times [V_j].
    [Q], [K], [V] have shape [N x H x D_out]; an edge is a pair
    (source, target). *)
Module AttentionSpec.

Definition score (C : nat) (Q K : tensor R) (e : Z * Z) (h : nat) : R :=
  (rsum (map (fun c => get 0%R Q [Z.to_nat (snd e); h; c]
                       * get 0%R K [Z.to_nat (fst e); h; c])%R (seq 0 C))
   / sqrt (INR C))%R.

Definition incoming (es : list (Z * Z)) (i : Z) : list (Z * Z) :=
  filter (fun e => Z.eqb (snd e) i) es.

Definition alpha (C : nat) (Q K : tensor R) (es : list (Z * Z))
    (e : Z * Z) (h : nat) : R :=
  (exp (score C Q K e h)
   / rsum (map (fun e' => exp (score C Q K e' h)) (incoming es (snd e))))%R.

Definition aggregate (C : nat) (Q K V : tensor R) (es : list (Z * Z))
    (i h c : nat) : R :=
  rsum (map (fun e => alpha C Q K es e h
                      * get 0%R V [Z.to_nat (fst e); h; c])%R
          (incoming es (Z.of_nat i))).

End AttentionSpec.

(** ** Layers as the constructors build them *)

Definition wf_Linear (in_f out_f : nat) (l : Linear) : Prop :=
  shape (weight l) = [out_f; in_f] /\ shape (bias l) = [out_f].

(** The shapes [GraphVAE.__init__(in_channels, ...)] gives to the
    parameters of a layer. *)
Definition wf_GraphVAE (in_channels : nat) (l : GraphVAE) : Prop :=
  wf_Linear in_channels (heads l * out_channels l) (lin_q l)
  /\ wf_Linear in_channels (heads l * out_channels l) (lin_k l)
  /\ wf_Linear in_channels (heads l * out_channels l) (lin_v l)
  /\ wf_Linear (heads l * out_channels l) (out_channels l) (lin_out l)
  /\ normalized_shape (norm l) = out_channels l.

(** The tensor of zeros of a shape. *)
Definition zeros (sh : list nat) : tensor R := tabulate sh (fun _ => 0%R).

(** What [forward] does with the aggregate once [propagate] and the
    flattening [view] have returned it: project, add the input, normalise. *)
Definition project_residual_norm (l : GraphVAE) (agg x : tensor R)
  : res (tensor R) :=
  (let? out := linear (lin_out l) agg in
   let? out := add out x in
   layer_norm (norm l) out)%res.

(** The residual-only path of a layer on [x]: the zero aggregate projected,
    the input added, the sum normalised. *)
Definition residual_only (l : GraphVAE) (x : tensor R) : res (tensor R) :=
  project_residual_norm l
    (zeros [nth 0 (shape x) 0; heads l * out_channels l]) x.

(** The node-feature dimension of an input [x]: its last size. *)
Definition feature_dim (x : tensor R) : nat := last (shape x) 0.

(** The score [message] computes at position [(i, j)] of its gathered
    arguments: the dot product over the last axis, scaled. *)
Definition message_score (l : GraphVAE) (Q_i K_j : tensor R) (i j : nat) : R :=
  Rdiv
    (rsum (map (fun k => get 0%R Q_i [i; j; k] * get 0%R K_j [i; j; k])%R
             (seq 0 (nth 2 (shape Q_i) 0))))
    (sqrt (INR (out_channels l))).

(** ** Example inputs *)

(** Propane [CCC] (3 atoms, 2 bonds), methane [C] (one atom, no bond) and
    pentane [CCCCC], as RDKit numbers their heavy atoms. *)
Definition propane : Mol :=
  mkMol [mkAtom 6; mkAtom 6; mkAtom 6] [mkBond 0 1; mkBond 1 2].

Definition methane : Mol := mkMol [mkAtom 6] [].

Definition pentane : Mol :=
  mkMol [mkAtom 6; mkAtom 6; mkAtom 6; mkAtom 6; mkAtom 6]
    [mkBond 0 1; mkBond 1 2; mkBond 2 3; mkBond 3 4].

(** The graph of a molecule; [mol_to_graph] never raises. *)
Definition graph_of (mol : Mol) : Data.t :=
  match mol_to_graph mol with
  | Ok g => g
  | Raise _ => Data.mk (mkT [0] []) (mkT [0] [])
  end.

(** A generator whose draws are all zero noise and all "keep". *)
Definition gen0 : Gen := mkGen (fun _ => 0%R) (fun _ => true) 0.

(** Queries and keys zero, values one, all biases but the value bias zero,
    the output projection summing the aggregate into channel 0. *)
Definition init_ones : LayerInit :=
  mkLayerInit (fun _ _ => 0%R) (fun _ => 0%R)
              (fun _ _ => 0%R) (fun _ => 0%R)
              (fun _ _ => 0%R) (fun _ => 1%R)
              (fun o _ => if o =? 0 then 1%R else 0%R) (fun _ => 0%R).

Definition GraphVAE_set_node_dim (d : Z) (l : GraphVAE) : GraphVAE :=
  mkGraphVAE (heads l) (out_channels l) (lin_q l) (lin_k l) (lin_v l)
    (lin_out l) (dropout_p l) (norm l) (training l) d.

(** A layer with 2 heads and 1 channel in evaluation mode, and one bond
    between two atoms: the edges [0 -> 1] and [1 -> 0]. *)
Definition attn_layer : GraphVAE :=
  GraphVAE_set_training false (GraphVAE_init 1 1 2 default_dropout init_ones).

Definition one_bond : tensor Z := mkT [2; 2] [0; 1; 1; 0]%Z.

Definition Q0 : tensor R := mkT [2; 2; 1] [0; 0; 0; 0]%R.
Definition V1 : tensor R := mkT [2; 2; 1] [1; 1; 1; 1]%R.

(** A one-layer model with 2 hidden channels and a 1-dimensional latent,
    in the training mode a fresh module is in; [fc_mu] reads channel 0. *)
Definition zero_init : LinearInit :=
  mkLinearInit (fun _ _ => 0%R) (fun _ => 0%R).

Definition mu_init : LinearInit :=
  mkLinearInit (fun _ k => if k =? 0 then 1%R else 0%R) (fun _ => 0%R).

Definition vae_small : VAE_GNN :=
  VAE_GNN_init 1 2 1 1 (fun _ => init_ones)
    mu_init zero_init zero_init zero_init.

(** A generator whose first 12 Bernoulli draws keep and whose later ones
    drop. *)
Definition gen_keep12 : Gen := mkGen (fun _ => 0%R) (fun k => k <? 12) 0.

(** The entry [mu[0, 0]] of an [encode] result. *)
Definition first_mu (r : res (tensor R * tensor R)) : R :=
  match r with
  | Ok ml => get 0%R (fst ml) [0; 0]
  | Raise _ => 0%R
  end.

(** A computation that neither reads nor advances the generator. *)
Definition pure_M {A} (c : M A) : Prop :=
  exists r, forall g, c g = (r, g).

(** ** What the layer computes along an edge

    With the layer's [node_dim = -2], [propagate] reads the node indices of
    [edge_index] along the head axis of [Q], [K], [V] (shape
    [N x H x C]).  For row [i] and edge [e], the score is the scaled dot
    product of [Q[i, target e, :]] and [K[i, source e, :]], and the weight
    is its softmax over all edges. *)
Definition edge_target (ei : tensor Z) (e : nat) : nat :=
  Z.to_nat (get 0%Z ei [1; e]).

Definition edge_source (ei : tensor Z) (e : nat) : nat :=
  Z.to_nat (get 0%Z ei [0; e]).

Definition edge_score (l : GraphVAE) (ei : tensor Z) (Q K : tensor R)
    (i e : nat) : R :=
  Rdiv
    (rsum (map (fun k => get 0%R Q [i; edge_target ei e; k]
                         * get 0%R K [i; edge_source ei e; k])%R
             (seq 0 (out_channels l))))
    (sqrt (INR (out_channels l))).

Definition edge_weight (l : GraphVAE) (ei : tensor Z) (Q K : tensor R)
    (i e : nat) : R :=
  Rdiv (exp (edge_score l ei Q K i e))
       (rsum (map (fun e' => exp (edge_score l ei Q K i e'))
                (seq 0 (nth 1 (shape ei) 0)))).

(** The latent of shape [1 x latent] that the [k]-th iteration of
    [generate_molecule]'s loop draws from a generator in state [g]. *)
Definition sample_latent (latent : nat) (g : Gen) (k : nat) : tensor R :=
  mkT [1; latent]
    (map (fun j => normal_draw g (cursor g + k * latent + j)) (seq 0 latent)).

(** The samples a call returned, the empty list when it raised. *)
Definition samples_of (r : res (list (tensor R)) * VAE_GNN * Gen)
  : list (tensor R) :=
  match fst (fst r) with
  | Ok l => l
  | Raise _ => []
  end.

(** ** Training loop: [train]

    Besides the exceptions of the tensor code, the loop can raise
    [AttributeError] (an attribute a [Data] object or [None] does not have)
    and [ZeroDivisionError] (the average over an empty loader). *)
Inductive pyexn : Type :=
| TorchError (e : exn)
| AttributeError
| ZeroDivisionError.

Inductive pyres (A : Type) : Type :=
| PyOk (a : A)
| PyRaise (e : pyexn).

Arguments PyOk {A} a.
Arguments PyRaise {A} e.

(** What the loader yields: a [Data] object with [x] and [edge_index],
    which may or may not carry the attributes [mu] and [logvar] that
    [train] reads ([mol_to_graph] sets neither). *)
Record LoaderItem : Type := mkLoaderItem {
  item_data : Data.t;
  item_mu : option (tensor R);
  item_logvar : option (tensor R)
}.

(** [loss_function] called on any Python value as [recon_x]: on a tensor it
    is [loss_function]; [None], an integer or a string has no [size()], so
    the shape test of [F.binary_cross_entropy_with_logits] raises
    [AttributeError]. *)
Definition loss_function_py (recon_x : pyval) (x mu logvar : tensor R)
  : pyres R :=
  match recon_x with
  | PyTensor r =>
      match loss_function r x mu logvar with
      | Ok v => PyOk v
      | Raise e => PyRaise (TorchError e)
      end
  | _ => PyRaise AttributeError
  end.

Section Train.

(** The optimizer with the gradient buffers of the parameters, and what
    [optimizer.zero_grad()] and [loss.backward(); optimizer.step()] do to it
    and to the model.  The two calls may depend on the loss, on the batch
    and on the generator state the forward pass started from, and they may
    raise ([backward] does on a loss that no parameter contributes to);
    either way they leave an optimizer and a model behind. *)
Variable Opt : Type.
Variable zero_grad : Opt -> Opt.
Variable backward_step :
  Opt -> VAE_GNN -> LoaderItem -> Gen -> R -> pyres unit * (Opt * VAE_GNN).

(** The callable passed as [criterion]. *)
Variable criterion : pyval -> tensor R -> tensor R -> tensor R -> pyres R.

(** The mutable objects [train] works on, and the averages it has
    printed. *)
Record TrainState : Type := mkTrainState {
  ts_model : VAE_GNN;
  ts_opt : Opt;
  ts_gen : Gen;
  ts_log : list R
}.

(** The [for data in loader] loop, from a running [total_loss]. *)
Fixpoint train_batches (loader : list LoaderItem) (st : TrainState)
    (total_loss : R) : pyres R * TrainState :=
  match loader with
  | [] => (PyOk total_loss, st)
  | data :: rest =>
      let opt := zero_grad (ts_opt st) in
      let model := ts_model st in
      let x := Data.x (item_data data) in
      match VAE_GNN_forward model x (Data.edge_index (item_data data))
              (ts_gen st) with
      | (Raise e, g') =>
          (PyRaise (TorchError e), mkTrainState model opt g' (ts_log st))
      | (Ok out, g') =>
          let st' := mkTrainState model opt g' (ts_log st) in
          match item_mu data, item_logvar data with
          | Some mu, Some logvar =>
              match criterion out x mu logvar with
              | PyOk loss =>
                  let om := backward_step opt model data (ts_gen st) loss in
                  let st'' :=
                    mkTrainState (snd (snd om)) (fst (snd om)) g' (ts_log st) in
                  match fst om with
                  | PyOk _ => train_batches rest st'' (total_loss + loss)%R
                  | PyRaise e => (PyRaise e, st'')
                  end
              | PyRaise e => (PyRaise e, st')
              end
          | _, _ => (PyRaise AttributeError, st')
          end
      end
  end.

(** The [for epoch in range(epochs)] loop, [n] times. *)
Fixpoint train_epochs (n : nat) (loader : list LoaderItem) (st : TrainState)
  : pyres unit * TrainState :=
  match n with
  | O => (PyOk tt, st)
  | S n' =>
      match train_batches loader st 0%R with
      | (PyOk total_loss, st') =>
          match loader with
          | [] => (PyRaise ZeroDivisionError, st')
          | _ :: _ =>
              train_epochs n' loader
                (mkTrainState (ts_model st') (ts_opt st') (ts_gen st')
                   (ts_log st' ++ [(total_loss / INR (length loader))%R]))
          end
      | (PyRaise e, st') => (PyRaise e, st')
      end
  end.

(** [train(model, loader, optimizer, criterion, epochs)]. *)
Definition train (model : VAE_GNN) (loader : list LoaderItem) (optimizer : Opt)
    (epochs : Z) (g : Gen) : pyres unit * TrainState :=
  train_epochs (Z.to_nat epochs) loader
    (mkTrainState (VAE_GNN_train true model) optimizer g []).

End Train.

Definition default_epochs : Z := 10%Z.

(** ** Further example inputs *)

Definition propane_x : tensor R := Data.x (graph_of propane).
Definition propane_edge_index : tensor Z := Data.edge_index (graph_of propane).

(** Queries for three heads and one channel; slot 2 of the head axis is the
    target of no edge of [one_bond]. *)
Definition Q03 : tensor R := mkT [2; 3; 1] [0; 0; 0; 0; 0; 0]%R.

(** A generator whose draws are all zero noise; a mean [[1, 2]], a
    log-variance [[0, 0]] and a log-variance [[0, 200]]. *)
Definition gen32_zero : Gen32 := mkGen32 (fun _ => f32_zero) 0.

Definition mu_12 : tensor f32 := mkT [2] [f32_of_Z 1; f32_of_Z 2].
Definition logvar_00 : tensor f32 := mkT [2] [f32_zero; f32_zero].
Definition logvar_0_200 : tensor f32 := mkT [2] [f32_zero; f32_of_Z 200].

(** A batch as [mol_to_graph] builds it: no [mu], no [logvar]. *)
Definition propane_item : LoaderItem :=
  mkLoaderItem (graph_of propane) None None.

(** An optimizer without state whose step changes nothing. *)
Definition null_step (o : unit) (m : VAE_GNN) (d : LoaderItem) (g : Gen)
    (loss : R) : pyres unit * (unit * VAE_GNN) := (PyOk tt, (o, m)).

(** ** Evaluating real-valued entries at concrete inputs *)

(** Rewrite the argument of every [exp] that is an arithmetic zero to [0]. *)
Ltac zero_scores :=
  repeat match goal with
  | |- context [exp ?a] =>
      lazymatch a with
      | 0%R => fail
      | _ => replace a with 0%R by (unfold Rdiv; ring)
      end
  end.

(** Unfold the model down to real arithmetic and close the goal. *)
Ltac eval_real :=
  cbv -[Rplus Rmult Rdiv Rinv Rminus Ropp exp sqrt INR IZR];
  zero_scores; rewrite ?exp_0; try lra.

(** Unfold a computation that runs [Dropout] in training mode with the
    default rate, which is neither 0 nor 1, down to the branch that draws
    the mask. *)
Ltac dropout_active :=
  let E0 := fresh "E" in
  let E1 := fresh "E" in
  assert (E0 : Reqb default_dropout 0 = false)
    by (unfold Reqb, default_dropout;
        destruct (Req_dec_T (1 / 10) 0); [lra|reflexivity]);
  assert (E1 : Reqb default_dropout 1 = false)
    by (unfold Reqb, default_dropout;
        destruct (Req_dec_T (1 / 10) 1); [lra|reflexivity]);
  cbv -[Rplus Rmult Rdiv Rinv Rminus Ropp exp sqrt INR IZR Reqb default_dropout];
  destruct (Reqb default_dropout 0); [discriminate|];
  destruct (Reqb default_dropout 1); [discriminate|];
  clear E0 E1.

(** * Properties *)

(** ** Indexing *)

Lemma numel_cons (d : nat) (ds : list nat) : numel (d :: ds) = d * numel ds.
Proof. reflexivity. Qed.

Lemma ravel_unravel : forall sh k, k < numel sh -> ravel sh (unravel sh k) = k.
Proof.
  induction sh as [|d ds IH]; intros k Hk.
  - simpl in *. lia.
  - rewrite numel_cons in Hk. simpl.
    destruct (Nat.eq_dec (numel ds) 0) as [E|E].
    + rewrite E in Hk. lia.
    + rewrite IH by (apply Nat.mod_upper_bound; exact E).
      pose proof (Nat.div_mod_eq k (numel ds)). lia.
Qed.

Lemma in_rangeb_unravel :
  forall sh k, k < numel sh -> in_rangeb sh (unravel sh k) = true.
Proof.
  induction sh as [|d ds IH]; intros k Hk.
  - reflexivity.
  - rewrite numel_cons in Hk. simpl.
    assert (E : numel ds <> 0) by (intro E; rewrite E in Hk; lia).
    apply andb_true_intro; split.
    + apply Nat.ltb_lt. apply Nat.Div0.div_lt_upper_bound. lia.
    + apply IH. apply Nat.mod_upper_bound; exact E.
Qed.

Lemma ravel_lt :
  forall sh idx, in_rangeb sh idx = true -> ravel sh idx < numel sh.
Proof.
  induction sh as [|d ds IH]; intros [|i is'] H; simpl in H; try discriminate.
  - simpl. lia.
  - apply andb_prop in H. destruct H as [Hi Hr].
    apply Nat.ltb_lt in Hi. specialize (IH _ Hr).
    rewrite numel_cons. simpl. nia.
Qed.

Lemma unravel_ravel :
  forall sh idx, in_rangeb sh idx = true -> unravel sh (ravel sh idx) = idx.
Proof.
  induction sh as [|d ds IH]; intros [|i is'] H; simpl in H; try discriminate.
  - reflexivity.
  - apply andb_prop in H. destruct H as [Hi Hr].
    pose proof (ravel_lt _ _ Hr) as Hlt.
    simpl. f_equal.
    + rewrite Nat.div_add_l by lia. rewrite Nat.div_small by exact Hlt. lia.
    + rewrite Nat.add_comm, Nat.Div0.mod_add.
      rewrite Nat.mod_small by exact Hlt. apply IH; exact Hr.
Qed.

Lemma nth_map_seq {A} (f : nat -> A) (d : A) :
  forall n k, k < n -> nth k (map f (seq 0 n)) d = f k.
Proof.
  intros n k Hk.
  rewrite (nth_indep _ d (f 0)) by (rewrite length_map, length_seq; exact Hk).
  rewrite (map_nth f (seq 0 n) 0 k), seq_nth by exact Hk. reflexivity.
Qed.

Lemma get_tabulate {A} (d : A) (sh : list nat) (f : list nat -> A) (idx : list nat) :
  in_rangeb sh idx = true -> get d (tabulate sh f) idx = f idx.
Proof.
  intros H. unfold get, tabulate. simpl.
  rewrite nth_map_seq by (apply ravel_lt; exact H).
  rewrite unravel_ravel by exact H. reflexivity.
Qed.

Lemma wfT_tabulate {A} (sh : list nat) (f : list nat -> A) : wfT (tabulate sh f).
Proof. unfold wfT, tabulate. simpl. rewrite length_map, length_seq. reflexivity. Qed.

Lemma map_nth_seq {A} (d : A) (l : list A) :
  map (fun k => nth k l d) (seq 0 (length l)) = l.
Proof.
  apply nth_ext with (d := d) (d' := d).
  - rewrite length_map, length_seq. reflexivity.
  - intros n Hn. rewrite length_map, length_seq in Hn.
    exact (nth_map_seq (fun k => nth k l d) d Hn).
Qed.

Lemma map_seq_ext {A} (f g : nat -> A) (n : nat) :
  (forall k, k < n -> f k = g k) -> map f (seq 0 n) = map g (seq 0 n).
Proof.
  intros H. apply map_ext_in. intros k Hk. apply in_seq in Hk. apply H. lia.
Qed.

Lemma tabulate_ext {A} (sh : list nat) (f g : list nat -> A) :
  (forall idx, in_rangeb sh idx = true -> f idx = g idx) ->
  tabulate sh f = tabulate sh g.
Proof.
  intros H. unfold tabulate. f_equal. apply map_seq_ext.
  intros k Hk. apply H. apply in_rangeb_unravel. exact Hk.
Qed.

Lemma tabulate_get {A} (d : A) (t : tensor A) :
  wfT t -> tabulate (shape t) (get d t) = t.
Proof.
  destruct t as [sh dt]. unfold wfT, tabulate, get. simpl. intros H.
  f_equal. rewrite <- H.
  rewrite <- (map_nth_seq d dt) at 2.
  apply map_seq_ext. intros k Hk.
  rewrite ravel_unravel by (rewrite <- H; exact Hk). reflexivity.
Qed.

(** ** [mol_to_graph] *)


Lemma edge_rows_pairs (bonds : list Bond) :
  edge_rows bonds = map row_of_pair (edge_pairs bonds).
Proof.
  induction bonds as [|b bs IH]; simpl; [reflexivity|].
  rewrite IH. reflexivity.
Qed.

Lemma nth_concat_pairs :
  forall (ps : list (Z * Z)) (c : nat), c < length ps ->
    nth (c * 2) (concat (map row_of_pair ps)) 0%Z = fst (nth c ps (0%Z, 0%Z))
    /\ nth (c * 2 + 1) (concat (map row_of_pair ps)) 0%Z
       = snd (nth c ps (0%Z, 0%Z)).
Proof.
  induction ps as [|p ps IH]; intros c Hc; simpl in Hc; [lia|].
  destruct c as [|c].
  - simpl. split; reflexivity.
  - specialize (IH c ltac:(lia)).
    replace (S c * 2) with (S (S (c * 2))) by lia.
    replace (S (S (c * 2)) + 1) with (S (S (c * 2 + 1))) by lia.
    simpl. exact IH.
Qed.

Lemma tensor_of_rows_pairs (ps : list (Z * Z)) :
  tensor_of_rows (map row_of_pair ps)
  = Ok (match ps with
        | [] => mkT [0] []
        | _ :: _ => mkT [length ps; 2] (concat (map row_of_pair ps))
        end).
Proof.
  destruct ps as [|p ps]; [reflexivity|].
  unfold tensor_of_rows.
  change (map row_of_pair (p :: ps)) with (row_of_pair p :: map row_of_pair ps).
  cbv beta iota.
  assert (H : forallb (fun r' => length r' =? length (row_of_pair p))
                (row_of_pair p :: map row_of_pair ps) = true).
  { apply forallb_forall. intros r Hr.
    change (row_of_pair p :: map row_of_pair ps)
      with (map row_of_pair (p :: ps)) in Hr.
    apply in_map_iff in Hr. destruct Hr as [q [<- _]]. reflexivity. }
  rewrite H.
  change (row_of_pair p :: map row_of_pair ps) with (map row_of_pair (p :: ps)).
  rewrite length_map. reflexivity.
Qed.

Lemma tensor_of_rows_nodes (mol : Mol) :
  tensor_of_rows (node_rows mol)
  = Ok (match GetAtoms mol with
        | [] => mkT [0] []
        | _ :: _ => mkT [length (GetAtoms mol); 1] (concat (node_rows mol))
        end).
Proof.
  unfold node_rows. destruct (GetAtoms mol) as [|a l]; [reflexivity|].
  unfold tensor_of_rows.
  set (f := fun atom => [GetAtomicNum atom]).
  change (map f (a :: l)) with (f a :: map f l).
  cbv beta iota.
  assert (H : forallb (fun r' => length r' =? length (f a))
                (f a :: map f l) = true).
  { apply forallb_forall. intros r Hr.
    change (f a :: map f l) with (map f (a :: l)) in Hr.
    apply in_map_iff in Hr. destruct Hr as [q [<- _]]. reflexivity. }
  rewrite H.
  change (f a :: map f l) with (map f (a :: l)).
  rewrite length_map. reflexivity.
Qed.

Lemma edges_of_transposed_pairs (ps : list (Z * Z)) (e t : tensor Z) :
  tensor_of_rows (map row_of_pair ps) = Ok e ->
  transpose 0%Z e = Ok t ->
  edges_of t = ps.
Proof.
  rewrite tensor_of_rows_pairs. intros He Ht. injection He as <-.
  destruct ps as [|p ps].
  - simpl in Ht. injection Ht as <-. reflexivity.
  - remember (p :: ps) as qs eqn:Eqs.
    unfold transpose in Ht. simpl in Ht. injection Ht as <-.
    unfold edges_of. simpl shape. cbv iota beta.
    rewrite <- (map_nth_seq (0%Z, 0%Z) qs) at 2.
    apply map_seq_ext. intros c Hc.
    assert (R0 : in_rangeb [2; length qs] [0; c] = true).
    { simpl. apply Nat.ltb_lt in Hc. rewrite Hc. reflexivity. }
    assert (R1 : in_rangeb [2; length qs] [1; c] = true).
    { simpl. apply Nat.ltb_lt in Hc. rewrite Hc. reflexivity. }
    rewrite !get_tabulate by assumption.
    destruct (nth_concat_pairs qs Hc) as [H0 H1].
    unfold get. simpl.
    replace (c * 2 + 0) with (c * 2) by lia.
    rewrite H0, H1. destruct (nth c qs (0%Z, 0%Z)); reflexivity.
Qed.

Lemma mol_to_graph_ok (mol : Mol) :
  exists g, mol_to_graph mol = Ok g
            /\ edges g = edge_pairs (GetBonds mol)
            /\ num_nodes g = length (GetAtoms mol).
Proof.
  unfold mol_to_graph.
  rewrite edge_rows_pairs.
  destruct (tensor_of_rows (map row_of_pair (edge_pairs (GetBonds mol))))
    as [e|] eqn:He; [|rewrite tensor_of_rows_pairs in He; discriminate].
  simpl.
  destruct (transpose 0%Z e) as [t|] eqn:Ht.
  2:{ rewrite tensor_of_rows_pairs in He. injection He as <-.
      destruct (edge_pairs (GetBonds mol)); discriminate. }
  simpl. rewrite tensor_of_rows_nodes. simpl.
  eexists. split; [reflexivity|]. split.
  - unfold edges. simpl. eapply edges_of_transposed_pairs; eassumption.
  - unfold num_nodes. simpl. destruct (GetAtoms mol); reflexivity.
Qed.

Lemma edge_pairs_in (bonds : list Bond) (i j : Z) :
  In (i, j) (edge_pairs bonds) <->
  exists b, In b bonds
            /\ ((i = Z.of_nat (GetBeginAtomIdx b) /\ j = Z.of_nat (GetEndAtomIdx b))
                \/ (i = Z.of_nat (GetEndAtomIdx b) /\ j = Z.of_nat (GetBeginAtomIdx b))).
Proof.
  unfold edge_pairs. rewrite in_flat_map. split.
  - intros [b [Hb Hin]]. exists b. split; [exact Hb|].
    simpl in Hin. destruct Hin as [E|[E|[]]]; injection E as <- <-; auto.
  - intros [b [Hb H]]. exists b. split; [exact Hb|].
    simpl. destruct H as [[-> ->]|[-> ->]]; auto.
Qed.

(** C6: for every RDKit molecule, [mol_to_graph] returns a graph whose
    edge endpoints are valid node indices (below the number of atoms) and
    whose edge set is symmetric; both directed edges of every bond are
    present. *)
Theorem mol_to_graph_invariant (mol : Mol) :
  wf_mol mol ->
  exists g,
    mol_to_graph mol = Ok g
    /\ num_nodes g = length (GetAtoms mol)
    /\ (forall i j, In (i, j) (edges g) ->
          (0 <= i < Z.of_nat (num_nodes g))%Z
          /\ (0 <= j < Z.of_nat (num_nodes g))%Z
          /\ In (j, i) (edges g))
    /\ (forall b, In b (GetBonds mol) ->
          In (Z.of_nat (GetBeginAtomIdx b), Z.of_nat (GetEndAtomIdx b)) (edges g)
          /\ In (Z.of_nat (GetEndAtomIdx b), Z.of_nat (GetBeginAtomIdx b)) (edges g)).
Proof.
  intros Hwf.
  destruct (mol_to_graph_ok mol) as [g [Hg [He Hn]]].
  exists g. split; [exact Hg|]. split; [exact Hn|].
  rewrite He, Hn. split.
  - intros i j Hin. apply edge_pairs_in in Hin.
    destruct Hin as [b [Hb H]].
    unfold wf_mol in Hwf. rewrite Forall_forall in Hwf.
    destruct (Hwf b Hb) as [Hi Hj].
    assert (Hsym : In (j, i) (edge_pairs (GetBonds mol))).
    { apply edge_pairs_in. exists b. split; [exact Hb|]. tauto. }
    destruct H as [[-> ->]|[-> ->]]; repeat split; try lia; exact Hsym.
  - intros b Hb. split; apply edge_pairs_in; exists b; auto.
Qed.

(** ** Broadcasting and elementwise operations *)

Lemma broadcast_rev_same (sh : list nat) : broadcast_rev sh sh = Some sh.
Proof.
  induction sh as [|d ds IH]; [reflexivity|].
  simpl. rewrite IH, Nat.eqb_refl. reflexivity.
Qed.

Lemma broadcast_shapes_same (sh : list nat) : broadcast_shapes sh sh = Some sh.
Proof.
  unfold broadcast_shapes. rewrite broadcast_rev_same. simpl.
  rewrite rev_involutive. reflexivity.
Qed.

Lemma in_rangeb_length :
  forall sh idx, in_rangeb sh idx = true -> length idx = length sh.
Proof.
  induction sh as [|d ds IH]; intros [|i is'] H; simpl in H; try discriminate.
  - reflexivity.
  - apply andb_prop in H. simpl. f_equal. apply IH. apply H.
Qed.

Lemma bidx_same :
  forall sh idx, in_rangeb sh idx = true -> bidx sh idx = idx.
Proof.
  intros sh idx H. unfold bidx.
  rewrite (in_rangeb_length _ _ H), Nat.sub_diag. simpl skipn.
  revert idx H.
  induction sh as [|d ds IH]; intros [|i is'] H; simpl in H; try discriminate.
  - reflexivity.
  - apply andb_prop in H. destruct H as [Hi Hr]. apply Nat.ltb_lt in Hi.
    simpl. rewrite (IH _ Hr). f_equal.
    destruct (Nat.eqb_spec d 1); lia.
Qed.

Lemma binop_same_shape (f : R -> R -> R) (a b : tensor R) :
  shape b = shape a ->
  binop f a b
  = Ok (tabulate (shape a) (fun idx => f (get 0%R a idx) (get 0%R b idx))).
Proof.
  intros E. unfold binop. rewrite E, broadcast_shapes_same.
  f_equal. apply tabulate_ext. intros idx H.
  rewrite (bidx_same _ _ H). reflexivity.
Qed.

Lemma get_tmap {A B} (f : A -> B) (d : A) (d' : B) (t : tensor A) (idx : list nat) :
  wfT t -> in_rangeb (shape t) idx = true ->
  get d' (tmap f t) idx = f (get d t idx).
Proof.
  intros W H. unfold get, tmap. simpl.
  rewrite (nth_indep _ d' (f d)).
  - apply map_nth.
  - rewrite length_map, W. apply ravel_lt. exact H.
Qed.

(** ** [VAE_GNN.reparameterize] on float32 tensors *)

Lemma binop32_same_shape (f : f32 -> f32 -> f32) (a b : tensor f32) :
  shape b = shape a ->
  binop32 f a b
  = Ok (tabulate (shape a)
          (fun idx => f (get f32_zero a idx) (get f32_zero b idx))).
Proof.
  intros E. unfold binop32. rewrite E, broadcast_shapes_same.
  f_equal. apply tabulate_ext. intros idx H.
  rewrite (bidx_same _ _ H). reflexivity.
Qed.

Lemma get_randn32 (sh : list nat) (g : Gen32) (idx : list nat) :
  in_rangeb sh idx = true ->
  get f32_zero (fst (randn32 sh g)) idx
  = normal_draw32 g (cursor32 g + ravel sh idx).
Proof.
  intros H. unfold get, randn32. simpl.
  apply (nth_map_seq (fun k => normal_draw32 g (cursor32 g + k))).
  apply ravel_lt. exact H.
Qed.

(** Zero times a finite number is a zero; zero times an infinity or a NaN
    is NaN. *)
Lemma f32_mul_zero_finite (x y : f32) :
  is_zero32 x = true -> is_finite32 y = true ->
  is_zero32 (f32_mul x y) = true.
Proof.
  destruct x as [sx|sx| |sx mx ex]; try discriminate.
  destruct y as [sy|sy| |sy my ey]; try discriminate; reflexivity.
Qed.

Lemma f32_mul_zero_not_finite (x y : f32) :
  is_zero32 x = true -> is_finite32 y = false -> f32_mul x y = S754_nan.
Proof.
  destruct x as [sx|sx| |sx mx ex]; try discriminate.
  destruct y as [sy|sy| |sy my ey]; try discriminate; reflexivity.
Qed.

(** Adding a zero changes no value; adding NaN gives NaN. *)
Lemma f32_add_zero (x y : f32) :
  is_zero32 y = true -> f32_same (f32_add x y) x.
Proof.
  destruct y as [sy|sy| |sy my ey]; try discriminate. intros _.
  destruct x as [sx|sx| |sx mx ex]; try (left; reflexivity).
  destruct sx, sy; try (left; reflexivity); right; split; reflexivity.
Qed.

Lemma f32_add_nan (x : f32) : f32_add x S754_nan = S754_nan.
Proof. destruct x as [sx|sx| |sx mx ex]; reflexivity. Qed.

(** [exp32] overflows from 89 up. *)
Lemma exp32_overflow (x : f32) :
  SFleb (f32_of_Z 89) x = true -> exp32 x = S754_infinity false.
Proof.
  destruct x as [sx|sx| |sx mx ex]; try discriminate.
  - destruct sx; [discriminate|reflexivity].
  - intros H. unfold exp32. rewrite H. reflexivity.
Qed.

(** The exponential of 1 is [2.7182817...]: [11401300 * 2^-22]. *)
Lemma exp32_one : exp32 (f32_of_Z 1) = S754_finite false 11401300 (-22).
Proof. vm_compute. reflexivity. Qed.

(** The float32 embedding and the real-valued one agree on what does not
    depend on the entries: both raise the same exception or both return a
    tensor of the same shape, and both consume one draw per entry of
    [logvar]. *)
Lemma reparameterize32_as_reparameterize (expf : f32 -> f32)
    (mu logvar : tensor f32) (mu' logvar' : tensor R) (g : Gen32) (g' : Gen) :
  shape mu' = shape mu -> shape logvar' = shape logvar ->
  match fst (reparameterize32 expf mu logvar g),
        fst (reparameterize mu' logvar' g') with
  | Ok z, Ok z' => shape z = shape z'
  | Raise e, Raise e' => e = e'
  | _, _ => False
  end
  /\ snd (reparameterize32 expf mu logvar g)
     = advance32 (numel (shape logvar)) g
  /\ snd (reparameterize mu' logvar' g') = advance (numel (shape logvar)) g'.
Proof.
  intros Emu Elv.
  unfold reparameterize32, reparameterize, bind, randn, randn32, lift, mul, add.
  cbn [fst snd].
  set (std := tmap expf _). set (std' := tmap _ logvar').
  change (shape std) with (shape logvar).
  change (shape std') with (shape logvar'). rewrite Elv.
  set (eps := mkT (shape logvar) _). set (eps' := mkT (shape logvar) _).
  rewrite (binop32_same_shape f32_mul eps std) by reflexivity.
  rewrite (binop_same_shape Rmult eps' std') by exact Elv.
  cbn [res_bind].
  set (es := tabulate (shape eps) _). set (es' := tabulate (shape eps') _).
  unfold binop32, binop.
  change (shape es) with (shape logvar).
  change (shape es') with (shape logvar). rewrite Emu.
  destruct (broadcast_shapes (shape mu) (shape logvar)) as [sh|];
    cbn [fst snd]; repeat split.
Qed.

(** C5, as the code has it on float32 tensors: for a mean and a
    log-variance tensor of one shape and every kernel [expf] behind
    [torch.exp], [reparameterize] draws noise of that shape and returns
    [mu + eps * expf(0.5 * logvar)] entry by entry, each operation rounded
    to float32.  At an entry whose noise is zero the result holds the value
    of the mean when [expf(0.5 * logvar)] is finite, and NaN when it is not,
    as it is once the exponential has overflowed. *)
Theorem reparameterize32_spec (expf : f32 -> f32) (mu logvar : tensor f32)
    (g : Gen32) :
  wfT mu -> wfT logvar -> shape logvar = shape mu ->
  exists z,
    reparameterize32 expf mu logvar g = (Ok z, advance32 (numel (shape mu)) g)
    /\ shape z = shape mu
    /\ forall idx, in_rangeb (shape mu) idx = true ->
         let eps := normal_draw32 g (cursor32 g + ravel (shape mu) idx) in
         let std := expf (f32_mul f32_half (get f32_zero logvar idx)) in
         get f32_zero z idx
         = f32_add (get f32_zero mu idx) (f32_mul eps std)
         /\ (is_zero32 eps = true -> is_finite32 std = true ->
             f32_same (get f32_zero z idx) (get f32_zero mu idx))
         /\ (is_zero32 eps = true -> is_finite32 std = false ->
             get f32_zero z idx = S754_nan).
Proof.
  intros Wmu Wlv Esh.
  unfold reparameterize32.
  set (std := tmap expf (tmap (f32_mul f32_half) logvar)).
  assert (Sstd : shape std = shape mu) by exact Esh.
  rewrite Sstd.
  set (eps := fst (randn32 (shape mu) g)).
  assert (Seps : shape eps = shape mu) by reflexivity.
  rewrite (binop32_same_shape f32_mul eps std) by (rewrite Seps; exact Sstd).
  rewrite Seps. cbn [res_bind].
  set (es := tabulate (shape mu)
               (fun idx => f32_mul (get f32_zero eps idx) (get f32_zero std idx))).
  rewrite (binop32_same_shape f32_add mu es) by reflexivity.
  eexists. split; [reflexivity|]. split; [reflexivity|].
  intros idx H. cbv zeta.
  assert (Hget : get f32_zero
                   (tabulate (shape mu)
                      (fun idx => f32_add (get f32_zero mu idx)
                                    (get f32_zero es idx))) idx
                 = f32_add (get f32_zero mu idx)
                     (f32_mul
                        (normal_draw32 g (cursor32 g + ravel (shape mu) idx))
                        (expf (f32_mul f32_half (get f32_zero logvar idx))))).
  { rewrite get_tabulate by exact H. f_equal.
    unfold es. rewrite get_tabulate by exact H.
    unfold eps. rewrite get_randn32 by exact H. f_equal.
    unfold std.
    rewrite (get_tmap expf f32_zero f32_zero)
      by (try (unfold wfT, tmap; simpl; rewrite length_map; exact Wlv);
          simpl; rewrite Esh; exact H).
    rewrite (get_tmap (f32_mul f32_half) f32_zero f32_zero)
      by (rewrite ?Esh; assumption).
    reflexivity. }
  rewrite Hget. split; [reflexivity|]. split.
  - intros Hz Hf. apply f32_add_zero. apply f32_mul_zero_finite; assumption.
  - intros Hz Hf. rewrite (f32_mul_zero_not_finite _ _ Hz Hf).
    apply f32_add_nan.
Qed.

(** C5 fails as the specification words it: with zero noise, a mean
    [[1, 2]] and a log-variance [[0, 200]], [reparameterize] returns
    [[1, NaN]] and not the mean, because [exp(100)] overflows to [+inf] in
    float32 and [0 * inf] is NaN. *)
Lemma reparameterize32_zero_noise_not_mean :
  fst (reparameterize32 exp32 mu_12 logvar_0_200 gen32_zero)
  = Ok (mkT [2] [f32_of_Z 1; S754_nan])
  /\ fst (reparameterize32 exp32 mu_12 logvar_0_200 gen32_zero) <> Ok mu_12.
Proof.
  assert (E : fst (reparameterize32 exp32 mu_12 logvar_0_200 gen32_zero)
              = Ok (mkT [2] [f32_of_Z 1; S754_nan]))
    by (vm_compute; reflexivity).
  split; [exact E|]. rewrite E. discriminate.
Qed.

(** ** [loss_function] *)

Lemma shape_eqb_eq : forall a b, shape_eqb a b = true <-> a = b.
Proof.
  induction a as [|m a IH]; intros [|n b]; simpl; split; intros H;
    try discriminate; try reflexivity.
  - apply andb_prop in H. destruct H as [H1 H2].
    apply Nat.eqb_eq in H1. apply IH in H2. congruence.
  - injection H as -> ->. rewrite Nat.eqb_refl. simpl. apply IH. reflexivity.
Qed.

Lemma shape_eqb_refl (a : list nat) : shape_eqb a a = true.
Proof. apply shape_eqb_eq. reflexivity. Qed.

Lemma get_unravel {A} (d : A) (t : tensor A) (k : nat) :
  k < numel (shape t) -> get d t (unravel (shape t) k) = nth k (data t) d.
Proof.
  intros H. unfold get. rewrite ravel_unravel by exact H. reflexivity.
Qed.

Lemma tsum_tabulate (sh : list nat) (f : list nat -> R) :
  tsum (tabulate sh f)
  = rsum (map (fun k => f (unravel sh k)) (seq 0 (numel sh))).
Proof. reflexivity. Qed.

Lemma KL_term_same_shape (mu logvar : tensor R) :
  wfT mu -> wfT logvar -> shape logvar = shape mu ->
  KL_term mu logvar
  = Ok (- 0.5
        * rsum (map (fun k =>
                       1 + nth k (data logvar) 0
                       - nth k (data mu) 0 * nth k (data mu) 0
                       - exp (nth k (data logvar) 0))
                  (seq 0 (numel (shape mu)))))%R.
Proof.
  intros Wmu Wlv Esh. unfold KL_term, sub.
  rewrite binop_same_shape by (simpl; congruence).
  simpl res_bind. rewrite binop_same_shape by (simpl; reflexivity).
  simpl res_bind. do 2 f_equal.
  rewrite tsum_tabulate. simpl shape. rewrite Esh.
  f_equal. apply map_seq_ext. intros k Hk.
  assert (Hr : in_rangeb (shape mu) (unravel (shape mu) k) = true)
    by (apply in_rangeb_unravel; exact Hk).
  rewrite get_tabulate by exact Hr.
  rewrite (get_tmap _ 0%R 0%R) by (rewrite ?Esh; assumption).
  rewrite (get_tmap _ 0%R 0%R) by assumption.
  rewrite (get_tmap _ 0%R 0%R) by (rewrite ?Esh; assumption).
  assert (Hlv : get 0%R logvar (unravel (shape mu) k) = nth k (data logvar) 0%R).
  { rewrite <- Esh. apply get_unravel. rewrite Esh. exact Hk. }
  rewrite Hlv, (get_unravel 0%R mu Hk). reflexivity.
Qed.

(** C4: for a reconstruction and a target of one shape and a mean and a
    log-variance of one shape, [loss_function] returns
    [reconstruction_term + beta * KL] with [beta = 1.0] and
    [KL = -0.5 * sum (1 + logvar - mu^2 - exp logvar)], the sum running over
    all entries. *)
Theorem loss_function_spec (recon_x x mu logvar : tensor R) :
  shape x = shape recon_x ->
  wfT mu -> wfT logvar -> shape logvar = shape mu ->
  exists BCE KL,
    binary_cross_entropy_with_logits_sum recon_x x = Ok BCE
    /\ KL = (- 0.5
             * rsum (map (fun k =>
                            1 + nth k (data logvar) 0
                            - nth k (data mu) 0 * nth k (data mu) 0
                            - exp (nth k (data logvar) 0))
                       (seq 0 (numel (shape mu)))))%R
    /\ beta = 1%R
    /\ loss_function recon_x x mu logvar = Ok (BCE + beta * KL)%R.
Proof.
  intros Ex Wmu Wlv Esh.
  unfold loss_function.
  rewrite (KL_term_same_shape Wmu Wlv Esh).
  unfold binary_cross_entropy_with_logits_sum.
  rewrite Ex, shape_eqb_refl. simpl res_bind.
  eexists. eexists. repeat split; reflexivity.
Qed.

Lemma rsum_zero (l : list R) : (forall v, In v l -> v = 0%R) -> rsum l = 0%R.
Proof.
  induction l as [|a l IH]; intros H; simpl; [reflexivity|].
  rewrite (H a) by (left; reflexivity).
  rewrite IH by (intros v Hv; apply H; right; exact Hv). lra.
Qed.

(** The KL term of the standard normal against itself is zero. *)
Lemma KL_term_zero (sh : list nat) :
  KL_term (tabulate sh (fun _ => 0%R)) (tabulate sh (fun _ => 0%R)) = Ok 0%R.
Proof.
  rewrite KL_term_same_shape by (try apply wfT_tabulate; reflexivity).
  f_equal. rewrite rsum_zero; [lra|].
  intros v Hv. apply in_map_iff in Hv. destruct Hv as [k [<- Hk]].
  apply in_seq in Hk. simpl shape in Hk. simpl data.
  rewrite (nth_map_seq (fun _ : nat => 0%R)) by lia.
  rewrite exp_0. lra.
Qed.

(** ** [VAE_GNN.forward] *)

(** C3: [VAE_GNN.forward] evaluates to a value exactly when [encode],
    [reparameterize] and [decode] all succeed, and that value is [None]:
    the latent mean and log-variance, the sampled latent and the decoded
    output are computed and dropped. *)
Theorem VAE_GNN_forward_returns_None
    (m : VAE_GNN) (x : tensor R) (edge_index : tensor Z) (g g' : Gen) (v : pyval) :
  VAE_GNN_forward m x edge_index g = (Ok v, g')
  <-> v = PyNone
      /\ exists mu logvar g1 z out,
           encode m x edge_index g = (Ok (mu, logvar), g1)
           /\ reparameterize mu logvar g1 = (Ok z, g')
           /\ decode m z = Ok out.
Proof.
  unfold VAE_GNN_forward. unfold bind at 1. split.
  - intros H.
    destruct (encode m x edge_index g) as [[[mu logvar]|e] g1] eqn:He;
      [|discriminate].
    unfold bind at 1 in H. simpl fst in H. simpl snd in H.
    destruct (reparameterize mu logvar g1) as [[z|e] g2] eqn:Hz; [|discriminate].
    unfold bind, lift, ret in H.
    destruct (decode m z) as [out|e] eqn:Hd; [|discriminate].
    injection H as <- <-. split; [reflexivity|].
    exists mu, logvar, g1, z, out. auto.
  - intros [-> [mu [logvar [g1 [z [out [He [Hz Hd]]]]]]]].
    rewrite He. unfold bind at 1. simpl fst. simpl snd. rewrite Hz.
    unfold bind, lift, ret. rewrite Hd. reflexivity.
Qed.

(** ** [generate_molecule] *)

Lemma GraphVAE_parameters_set_training (b : bool) (l : GraphVAE) :
  GraphVAE_parameters (GraphVAE_set_training b l) = GraphVAE_parameters l.
Proof. reflexivity. Qed.

Lemma parameters_train (b : bool) (m : VAE_GNN) :
  parameters (VAE_GNN_train b m) = parameters m.
Proof.
  unfold parameters, VAE_GNN_train. simpl. f_equal.
  induction (layers m) as [|l ls IH]; [reflexivity|].
  simpl. rewrite IH. reflexivity.
Qed.

(** C10: whatever the model, the argument [num_samples] and the generator
    state, [generate_molecule] leaves behind the model it was given with
    the mode flags cleared by [model.eval()] and nothing else changed: all
    parameters are the ones it started with. *)
Theorem generate_molecule_frame (model : VAE_GNN) (num_samples : pyval) (g : Gen) :
  let model' := snd (fst (generate_molecule model num_samples g)) in
  model' = VAE_GNN_eval model
  /\ parameters model' = parameters model
  /\ vae_training model' = false
  /\ Forall (fun l => training l = false) (layers model').
Proof.
  assert (E : snd (fst (generate_molecule model num_samples g))
              = VAE_GNN_eval model).
  { unfold generate_molecule. destruct num_samples; reflexivity. }
  cbv zeta. rewrite E. split; [reflexivity|]. split.
  - apply parameters_train.
  - split; [reflexivity|]. unfold VAE_GNN_eval, VAE_GNN_train. simpl.
    apply Forall_forall. intros l Hl. apply in_map_iff in Hl.
    destruct Hl as [l0 [<- _]]. reflexivity.
Qed.

(** ** Running the monad *)

Lemma bind_ok_inv {A B} (c : M A) (k : A -> M B) (g : Gen) :
  is_ok (fst (bind c k g)) = true ->
  exists a g1, c g = (Ok a, g1) /\ is_ok (fst (k a g1)) = true.
Proof.
  unfold bind. destruct (c g) as [[a|e] g1]; simpl; intros H;
    [|discriminate].
  exists a, g1. auto.
Qed.

Lemma lift_inv {A} (r : res A) (g g1 : Gen) (a : A) :
  lift r g = (Ok a, g1) -> r = Ok a /\ g1 = g.
Proof. unfold lift. intros H. injection H as -> ->. auto. Qed.

Lemma bind_lift {A B} (r : res A) (k : A -> M B) (g : Gen) (a : A) :
  r = Ok a -> bind (lift r) k g = k a g.
Proof. intros ->. reflexivity. Qed.

Lemma bind_lift_raise {A B} (r : res A) (k : A -> M B) (g : Gen) (e : exn) :
  r = Raise e -> bind (lift r) k g = (Raise e, g).
Proof. intros ->. reflexivity. Qed.

Lemma bind_run {A B} (c : M A) (k : A -> M B) (g g1 : Gen) (a : A) :
  c g = (Ok a, g1) -> bind c k g = k a g1.
Proof. unfold bind. intros ->. reflexivity. Qed.

(** ** Shapes through the layer *)

Lemma GraphVAE_init_wf (in_channels out_channels h : nat) (p : R)
    (w : LayerInit) (b : bool) :
  wf_GraphVAE in_channels
    (GraphVAE_set_training b (GraphVAE_init in_channels out_channels h p w)).
Proof. repeat split. Qed.

Lemma linear_inv (l : Linear) (i o : nat) (x y : tensor R) :
  wf_Linear i o l -> linear l x = Ok y ->
  exists rinit, rev (shape x) = i :: rinit /\ shape y = rev rinit ++ [o].
Proof.
  intros [Hw Hb] H. unfold linear in H. rewrite Hw in H.
  destruct (rev (shape x)) as [|d rinit]; [discriminate|].
  destruct (Nat.eqb_spec d i) as [->|]; simpl in H; [|discriminate].
  destruct (shape_eqb (shape (bias l)) [o]); [|discriminate].
  injection H as <-. exists rinit. auto.
Qed.

Lemma last_rev_cons {A} (l r : list A) (a d : A) :
  rev l = a :: r -> last l d = a.
Proof.
  intros H. rewrite <- (rev_involutive l), H. simpl. apply last_last.
Qed.

Lemma add_inv (a b s : tensor R) :
  add a b = Ok s -> broadcast_shapes (shape a) (shape b) = Some (shape s).
Proof.
  unfold add, binop. destruct (broadcast_shapes (shape a) (shape b));
    intros H; [|discriminate].
  injection H as <-. reflexivity.
Qed.

Lemma layer_norm_inv (n : LayerNorm) (s y : tensor R) :
  layer_norm n s = Ok y ->
  shape y = shape s
  /\ exists rest, rev (shape s) = normalized_shape n :: rest.
Proof.
  unfold layer_norm. destruct (rev (shape s)) as [|d rest]; [discriminate|].
  destruct (Nat.eqb_spec d (normalized_shape n)) as [->|]; [|discriminate].
  intros H. injection H as <-. split; [reflexivity|]. exists rest. reflexivity.
Qed.

(** The last size of a broadcast result is the last size of the left
    operand only when the right operand's last size is equal to it or 1. *)
Lemma broadcast_last (a b sh ra rb rsh : list nat) (m n : nat) :
  broadcast_shapes a b = Some sh ->
  rev a = m :: ra -> rev b = n :: rb -> rev sh = m :: rsh ->
  n = m \/ n = 1.
Proof.
  unfold broadcast_shapes. intros H Ha Hb Hsh. rewrite Ha, Hb in H.
  simpl in H. destruct (broadcast_rev ra rb) as [r|]; [|discriminate].
  destruct (Nat.eqb_spec m n) as [->|Hmn]; [left; reflexivity|].
  destruct (Nat.eqb_spec m 1) as [->|Hm].
  - simpl in H. injection H as <-. rewrite rev_app_distr in Hsh.
    simpl in Hsh. injection Hsh as -> _. left; reflexivity.
  - destruct (Nat.eqb_spec n 1) as [->|Hn]; [right; reflexivity|discriminate].
Qed.


(** ** When the layer succeeds *)

Lemma bind_lift_ok {A B} (a : A) (k : A -> M B) (g : Gen) :
  bind (lift (Ok a)) k g = k a g.
Proof. reflexivity. Qed.


Lemma linear_ok (l : Linear) (i o : nat) (x : tensor R) (rinit : list nat) :
  wf_Linear i o l -> rev (shape x) = i :: rinit ->
  exists y, linear l x = Ok y /\ shape y = rev rinit ++ [o].
Proof.
  intros [Hw Hb] Hx. unfold linear. rewrite Hw, Hx, Hb.
  rewrite Nat.eqb_refl, shape_eqb_refl. simpl.
  eexists. split; reflexivity.
Qed.

Lemma view_infer_heads {A} (t : tensor A) (n h c : nat) :
  shape t = [n; h * c] -> 0 < h * c ->
  view_infer t [h; c] = Ok (mkT [n; h; c] (data t)).
Proof.
  intros Hs Hp. unfold view_infer. rewrite Hs.
  replace (numel [n; h * c]) with (n * numel [h; c]) by (simpl; lia).
  assert (Hpos : 0 < numel [h; c]) by (simpl; lia).
  apply Nat.ltb_lt in Hpos as Hb. rewrite Hb.
  rewrite Nat.Div0.mod_mul, Nat.div_mul by lia. reflexivity.
Qed.

Lemma view_infer_flat {A} (t : tensor A) (n h c : nat) :
  shape t = [n; h; c] -> 0 < h * c ->
  view_infer t [h * c] = Ok (mkT [n; h * c] (data t)).
Proof.
  intros Hs Hp. unfold view_infer. rewrite Hs.
  replace (numel [n; h; c]) with (n * numel [h * c]) by (simpl; lia).
  assert (Hpos : 0 < numel [h * c]) by (simpl; lia).
  apply Nat.ltb_lt in Hpos as Hb. rewrite Hb.
  rewrite Nat.Div0.mod_mul, Nat.div_mul by lia. reflexivity.
Qed.

Lemma select0_edge_row (ei : tensor Z) (e bound r : nat) :
  wfT ei -> shape ei = [2; e] -> index_okb bound ei = true -> r < 2 ->
  exists row, select0 0%Z ei r = Ok row
              /\ shape row = [e] /\ index_okb bound row = true.
Proof.
  intros W Hs Hb Hr. unfold select0. rewrite Hs.
  apply Nat.ltb_lt in Hr as Hr'. rewrite Hr'.
  eexists. split; [reflexivity|]. split; [reflexivity|].
  unfold index_okb in *. rewrite forallb_forall in *.
  intros v Hv. simpl in Hv. apply in_map_iff in Hv.
  destruct Hv as [k [<- Hk]]. apply in_seq in Hk.
  apply Hb. unfold get. apply nth_In. rewrite W, Hs.
  apply ravel_lt. simpl. rewrite Hr'. simpl.
  assert (Hu : in_rangeb [e] (unravel [e] k) = true)
    by (apply in_rangeb_unravel; simpl; lia).
  exact Hu.
Qed.

Lemma index_select_mid (t : tensor R) (index : tensor Z) (n h c e : nat) :
  shape t = [n; h; c] -> shape index = [e] -> index_okb h index = true ->
  exists y, index_select t 1 index = Ok y /\ shape y = [n; e; c].
Proof.
  intros Ht Hi Hb. unfold index_select, rank. rewrite Hi, Ht. simpl.
  rewrite Hb. eexists. split; reflexivity.
Qed.

Lemma broadcast_shapes_keepdim (n e c : nat) :
  broadcast_shapes [n; e; 1] [n; e; c] = Some [n; e; c].
Proof.
  unfold broadcast_shapes.
  destruct c as [|[|c]]; simpl; rewrite !Nat.eqb_refl; reflexivity.
Qed.

Lemma dropout_ok (p : R) (b : bool) (t : tensor R) (g : Gen) :
  exists y g', dropout p b t g = (Ok y, g') /\ shape y = shape t.
Proof.
  unfold dropout, ret.
  destruct (negb b || (numel (shape t) =? 0) || Reqb p 0);
    [|destruct (Reqb p 1)]; eexists; eexists; split; reflexivity.
Qed.

Lemma message_ok (l : GraphVAE) (Q_i K_j V_j : tensor R) (n e c : nat) (g : Gen) :
  shape Q_i = [n; e; c] -> shape K_j = [n; e; c] -> shape V_j = [n; e; c] ->
  exists msg g', message l Q_i K_j V_j g = (Ok msg, g')
                 /\ shape msg = [n; e; c].
Proof.
  intros HQ HK HV. unfold message.
  erewrite bind_lift
    by (unfold mul; apply binop_same_shape; congruence).
  set (score0 := tmap _ _).
  assert (S0 : shape score0 = [n; e; 1]).
  { unfold score0, sum_last_keepdim. simpl. rewrite HQ. reflexivity. }
  erewrite bind_lift by (unfold softmax, rank; rewrite S0; reflexivity).
  set (score1 := tabulate _ _).
  destruct (dropout_ok (dropout_p l) (training l) score1 g)
    as (score2 & g' & Hd & S2).
  erewrite bind_run by exact Hd.
  unfold lift, mul, binop. rewrite S2.
  change (shape score1) with [n; e; 1].
  rewrite HV, broadcast_shapes_keepdim.
  eexists. eexists. split; reflexivity.
Qed.

Lemma scatter_sum_mid (src : tensor R) (index : tensor Z) (n e c h : nat) :
  shape src = [n; e; c] -> shape index = [e] -> index_okb h index = true ->
  exists y, scatter_sum src index 1 h = Ok y /\ shape y = [n; h; c]
            /\ (e = 0 -> y = zeros [n; h; c]).
Proof.
  intros Hs Hi Hb. unfold scatter_sum, rank. rewrite Hi, Hs. simpl.
  rewrite Nat.eqb_refl, Hb. simpl. eexists. split; [reflexivity|].
  split; [reflexivity|]. intros ->. reflexivity.
Qed.

(** With the default [node_dim = -2] the tensors [Q], [K], [V] of shape
    [N x H x C] are gathered and scattered along their head axis, so
    [propagate] needs every entry of [edge_index] to be below [H]. *)
Lemma propagate_ok (l : GraphVAE) (ei : tensor Z) (Q K V : tensor R)
    (n h c e : nat) (g : Gen) :
  node_dim l = (-2)%Z ->
  wfT ei -> shape ei = [2; e] -> index_okb h ei = true ->
  shape Q = [n; h; c] -> shape K = [n; h; c] -> shape V = [n; h; c] ->
  exists out g', propagate l ei Q K V g = (Ok out, g')
                 /\ shape out = [n; h; c]
                 /\ (e = 0 -> out = zeros [n; h; c]).
Proof.
  intros Hnd W Hs Hb HQ HK HV. unfold propagate. rewrite Hs. cbv beta iota.
  destruct (@select0_edge_row ei e h 1 W Hs Hb ltac:(lia)) as (dst & Hdst & Sd & Bd).
  destruct (@select0_edge_row ei e h 0 W Hs Hb ltac:(lia)) as (src & Hsrc & Ss & Bs).
  destruct (@index_select_mid Q dst n h c e HQ Sd Bd) as (Q_i & HQi & SQi).
  destruct (@index_select_mid K src n h c e HK Ss Bs) as (K_j & HKj & SKj).
  destruct (@index_select_mid V src n h c e HV Ss Bs) as (V_j & HVj & SVj).
  assert (ND : forall a b d : nat, norm_dim (length [a; b; d]) (-2) = Ok 1)
    by reflexivity.
  unfold rank. rewrite Hdst, Hsrc, HQ, HK, HV, Hnd, !ND, !bind_lift_ok.
  rewrite HQi, bind_lift_ok, bind_lift_ok, HKj, bind_lift_ok, bind_lift_ok.
  simpl nth. rewrite Nat.eqb_refl. change (negb true) with false. cbv iota.
  rewrite HVj, bind_lift_ok.
  destruct (@message_ok l Q_i K_j V_j n e c g SQi SKj SVj) as (msg & g' & Hm & Sm).
  erewrite bind_run by exact Hm. rewrite Sm, ND, bind_lift_ok.
  destruct (@scatter_sum_mid msg dst n e c h Sm Sd Bd) as (out & Ho & So & Hz).
  simpl nth. unfold lift. rewrite Ho. exists out, g'. auto.
Qed.

Lemma broadcast_shapes_residual (n c d : nat) :
  d = c \/ d = 1 -> broadcast_shapes [n; c] [n; d] = Some [n; c].
Proof.
  intros [->| ->]; [apply broadcast_shapes_same|].
  unfold broadcast_shapes.
  destruct c as [|[|c]]; simpl; rewrite !Nat.eqb_refl; reflexivity.
Qed.

(** Up to [propagate], [forward] succeeds on an [N x in_channels] input
    when every entry of the [2 x E] [edge_index] is below the number of
    heads; what remains is the projection, the residual addition and the
    normalisation of the aggregate. *)
Lemma GraphVAE_forward_split (in_channels : nat) (l : GraphVAE) (x : tensor R)
    (ei : tensor Z) (n e : nat) (g : Gen) :
  wf_GraphVAE in_channels l -> node_dim l = (-2)%Z ->
  0 < heads l * out_channels l ->
  shape x = [n; in_channels] ->
  wfT ei -> shape ei = [2; e] -> index_okb (heads l) ei = true ->
  exists out g',
    shape out = [n; heads l; out_channels l]
    /\ (e = 0 -> out = zeros [n; heads l; out_channels l])
    /\ GraphVAE_forward l x ei g
       = (project_residual_norm l
            (mkT [n; heads l * out_channels l] (data out)) x, g').
Proof.
  intros (Wq & Wk & Wv & Wo & Wn) Hnd Hpos Hx W Hs Hb.
  assert (Rx : rev (shape x) = in_channels :: [n]) by (rewrite Hx; reflexivity).
  destruct (@linear_ok _ _ _ x _ Wq Rx) as (q & Hq & Sq).
  destruct (@linear_ok _ _ _ x _ Wk Rx) as (k & Hk & Sk).
  destruct (@linear_ok _ _ _ x _ Wv Rx) as (v & Hv & Sv).
  simpl in Sq, Sk, Sv.
  unfold GraphVAE_forward.
  rewrite Hq, bind_lift_ok, (@view_infer_heads _ q _ _ _ Sq Hpos), bind_lift_ok.
  rewrite Hk, bind_lift_ok, (@view_infer_heads _ k _ _ _ Sk Hpos), bind_lift_ok.
  rewrite Hv, bind_lift_ok, (@view_infer_heads _ v _ _ _ Sv Hpos), bind_lift_ok.
  destruct (@propagate_ok l ei (mkT [n; heads l; out_channels l] (data q))
              (mkT [n; heads l; out_channels l] (data k))
              (mkT [n; heads l; out_channels l] (data v))
              n (heads l) (out_channels l) e g Hnd W Hs Hb
              eq_refl eq_refl eq_refl) as (out & g' & Hp & So & Hz).
  erewrite bind_run by exact Hp.
  rewrite (@view_infer_flat _ out _ _ _ So Hpos), bind_lift_ok.
  exists out, g'. split; [exact So|]. split; [exact Hz|].
  unfold project_residual_norm.
  destruct (linear (lin_out l) _) as [o|err]; [|reflexivity].
  rewrite bind_lift_ok. simpl res_bind.
  destruct (add o x) as [s|err]; reflexivity.
Qed.

Lemma project_residual_norm_ok (in_channels : nat) (l : GraphVAE)
    (a x : tensor R) (n : nat) :
  wf_GraphVAE in_channels l ->
  shape a = [n; heads l * out_channels l] ->
  shape x = [n; in_channels] ->
  in_channels = out_channels l \/ in_channels = 1 ->
  exists y, project_residual_norm l a x = Ok y
            /\ shape y = [n; out_channels l].
Proof.
  intros (Wq & Wk & Wv & Wo & Wn) Ha Hx Hres.
  assert (Ra : rev (shape a) = heads l * out_channels l :: [n])
    by (rewrite Ha; reflexivity).
  destruct (@linear_ok _ _ _ a _ Wo Ra) as (o & Ho & Sout).
  simpl in Sout.
  unfold project_residual_norm. rewrite Ho. simpl res_bind.
  unfold add, binop. rewrite Sout, Hx, (@broadcast_shapes_residual n _ _ Hres).
  simpl res_bind. unfold layer_norm. simpl shape. simpl rev.
  rewrite Wn, Nat.eqb_refl.
  eexists. split; reflexivity.
Qed.

(** The layer as [GraphVAE(in_channels, out_channels)] builds it completes
    [forward] with an [N x out_channels] result on an [N x in_channels]
    input when [in_channels] is [out_channels] or 1 and every entry of the
    [2 x E] [edge_index] is below the number of heads. *)
Lemma GraphVAE_forward_ok (in_channels : nat) (l : GraphVAE) (x : tensor R)
    (ei : tensor Z) (n e : nat) (g : Gen) :
  wf_GraphVAE in_channels l -> node_dim l = (-2)%Z ->
  0 < heads l * out_channels l ->
  shape x = [n; in_channels] ->
  in_channels = out_channels l \/ in_channels = 1 ->
  wfT ei -> shape ei = [2; e] -> index_okb (heads l) ei = true ->
  exists y g', GraphVAE_forward l x ei g = (Ok y, g')
               /\ shape y = [n; out_channels l].
Proof.
  intros Wl Hnd Hpos Hx Hres W Hs Hb.
  destruct (@GraphVAE_forward_split in_channels l x ei n e g Wl Hnd Hpos Hx W Hs Hb)
    as (out & g' & So & _ & Hf).
  destruct (@project_residual_norm_ok in_channels l
              (mkT [n; heads l * out_channels l] (data out)) x n Wl eq_refl Hx Hres)
    as (y & Hy & Sy).
  exists y, g'. rewrite Hf, Hy. auto.
Qed.

Lemma zeros_flat (n h c : nat) :
  mkT [n; h * c] (data (zeros [n; h; c])) = zeros [n; h * c].
Proof.
  unfold zeros, tabulate. cbn [data]. do 3 f_equal. simpl. lia.
Qed.

(** With a [2 x 0] [edge_index] the aggregate is zero and the layer returns
    the residual-only path: the normalised sum of the projected zero
    aggregate and the input. *)
Lemma GraphVAE_forward_no_edges (in_channels : nat) (l : GraphVAE)
    (x : tensor R) (n : nat) (g : Gen) :
  wf_GraphVAE in_channels l -> node_dim l = (-2)%Z ->
  0 < heads l * out_channels l ->
  shape x = [n; in_channels] ->
  fst (GraphVAE_forward l x (mkT [2; 0] []) g) = residual_only l x.
Proof.
  intros Wl Hnd Hpos Hx.
  destruct (@GraphVAE_forward_split in_channels l x (mkT [2; 0] []) n 0 g
              Wl Hnd Hpos Hx eq_refl eq_refl eq_refl)
    as (out & g' & So & Hz & Hf).
  rewrite Hf, (Hz eq_refl), zeros_flat. unfold residual_only.
  rewrite Hx. reflexivity.
Qed.

(** ** When the layer raises at the residual addition *)

Lemma project_residual_norm_raises (in_channels : nat) (l : GraphVAE)
    (a x : tensor R) (n d : nat) :
  wf_GraphVAE in_channels l ->
  shape a = [n; heads l * out_channels l] ->
  shape x = [n; d] ->
  d <> out_channels l -> d <> 1 ->
  project_residual_norm l a x = Raise RuntimeError.
Proof.
  intros (Wq & Wk & Wv & Wo & Wn) Ha Hx Hc H1.
  assert (Ra : rev (shape a) = heads l * out_channels l :: [n])
    by (rewrite Ha; reflexivity).
  destruct (@linear_ok _ _ _ a _ Wo Ra) as (o & Ho & Sout).
  simpl in Sout.
  unfold project_residual_norm. rewrite Ho. simpl res_bind.
  unfold add, binop, broadcast_shapes. rewrite Sout, Hx.
  simpl rev. simpl app. simpl broadcast_rev. rewrite Nat.eqb_refl.
  destruct (Nat.eqb_spec (out_channels l) d) as [E|_]; [congruence|].
  destruct (Nat.eqb_spec d 1) as [E|_]; [congruence|].
  destruct (Nat.eqb_spec (out_channels l) 1) as [E|_]; [|reflexivity].
  simpl res_bind. unfold layer_norm. simpl shape. simpl rev. simpl app.
  rewrite Wn.
  destruct (Nat.eqb_spec d (out_channels l)) as [E'|_]; [congruence|].
  reflexivity.
Qed.

(** C9: a layer with the parameter shapes of
    [GraphVAE(in_channels, out_channels)] only completes [forward] on an
    input whose node-feature dimension is [in_channels] and is equal to
    [out_channels] or to 1; on an [N x in_channels] input with any other
    [in_channels] that passes [propagate], the residual addition or the
    [LayerNorm] raises the [RuntimeError] of a shape mismatch. *)
Theorem GraphVAE_forward_needs_residual_shape
    (in_channels : nat) (l : GraphVAE) (x : tensor R) (edge_index : tensor Z)
    (g : Gen) :
  wf_GraphVAE in_channels l ->
  (is_ok (fst (GraphVAE_forward l x edge_index g)) = true ->
   feature_dim x = in_channels
   /\ (feature_dim x = out_channels l \/ feature_dim x = 1))
  /\ (forall n e,
        node_dim l = (-2)%Z -> 0 < heads l * out_channels l ->
        shape x = [n; in_channels] ->
        wfT edge_index -> shape edge_index = [2; e] ->
        index_okb (heads l) edge_index = true ->
        in_channels <> out_channels l -> in_channels <> 1 ->
        fst (GraphVAE_forward l x edge_index g) = Raise RuntimeError).
Proof.
  intros Wl. split.
  - destruct Wl as (Wq & Wk & Wv & Wo & Wn). intros H.
    unfold GraphVAE_forward in H.
    apply bind_ok_inv in H. destruct H as (q & g1 & Hq & H).
    apply lift_inv in Hq. destruct Hq as [Hq ->].
    do 5 (apply bind_ok_inv in H; destruct H as (? & ? & _ & H)).
    apply bind_ok_inv in H. destruct H as (agg & g2 & _ & H).
    apply bind_ok_inv in H. destruct H as (v & g3 & _ & H).
    apply bind_ok_inv in H. destruct H as (o & g4 & Ho & H).
    apply lift_inv in Ho. destruct Ho as [Ho _].
    apply bind_ok_inv in H. destruct H as (s & g5 & Hs & H).
    apply lift_inv in Hs. destruct Hs as [Hs _].
    unfold lift in H. simpl in H.
    destruct (layer_norm (norm l) s) as [y|] eqn:Hy; [|discriminate].
    destruct (@linear_inv _ _ _ _ _ Wq Hq) as (rx & Hx & _).
    destruct (@linear_inv _ _ _ _ _ Wo Ho) as (rv & _ & Hso).
    apply add_inv in Hs.
    destruct (@layer_norm_inv _ _ _ Hy) as (_ & rs & Hrs).
    rewrite Wn in Hrs.
    assert (Ro : rev (shape o) = out_channels l :: rv).
    { rewrite Hso, rev_app_distr, rev_involutive. reflexivity. }
    pose proof (@broadcast_last _ _ _ _ _ _ _ _ Hs Ro Hx Hrs) as Hd.
    unfold feature_dim. rewrite (@last_rev_cons _ _ _ _ 0 Hx).
    split; [reflexivity|]. destruct Hd as [Hd|Hd]; auto.
  - intros n e Hnd Hpos Hx W Hs Hb Hc H1.
    destruct (@GraphVAE_forward_split in_channels l x edge_index n e g
                Wl Hnd Hpos Hx W Hs Hb) as (out & g' & So & _ & Hf).
    rewrite Hf. simpl fst.
    apply (@project_residual_norm_raises in_channels l
             (mkT [n; heads l * out_channels l] (data out)) x n in_channels
             Wl eq_refl Hx Hc H1).
Qed.

(** ** Determinism of [encode] *)

Lemma pure_lift {A} (r : res A) : pure_M (lift r).
Proof. exists r. reflexivity. Qed.

Lemma pure_ret {A} (a : A) : pure_M (ret a).
Proof. exists (Ok a). reflexivity. Qed.

Lemma pure_bind {A B} (c : M A) (k : A -> M B) :
  pure_M c -> (forall a, pure_M (k a)) -> pure_M (bind c k).
Proof.
  intros [r Hr] Hk. destruct r as [a|e].
  - destruct (Hk a) as [rb Hb]. exists rb. intros g.
    unfold bind. rewrite Hr. apply Hb.
  - exists (Raise e). intros g. unfold bind. rewrite Hr. reflexivity.
Qed.

Lemma pure_message (l : GraphVAE) (Q_i K_j V_j : tensor R) :
  training l = false -> pure_M (message l Q_i K_j V_j).
Proof.
  intros Ht. unfold message.
  apply pure_bind; [apply pure_lift|]. intros qk.
  apply pure_bind; [apply pure_lift|]. intros sc.
  apply pure_bind; [|intros; apply pure_lift].
  rewrite Ht. unfold dropout. apply pure_ret.
Qed.

Lemma pure_propagate (l : GraphVAE) (ei : tensor Z) (Q K V : tensor R) :
  training l = false -> pure_M (propagate l ei Q K V).
Proof.
  intros Ht. unfold propagate.
  destruct (shape ei) as [|[|[|[|?]]] [|? [|? ?]]]; try apply pure_lift.
  repeat (apply pure_bind; [apply pure_lift|]; intros ?).
  destruct (negb _); [apply pure_lift|].
  apply pure_bind; [apply pure_lift|]. intros V_j.
  apply pure_bind; [apply pure_message; exact Ht|]. intros msg.
  apply pure_bind; [apply pure_lift|]. intros dm. apply pure_lift.
Qed.

Lemma pure_GraphVAE_forward (l : GraphVAE) (x : tensor R) (ei : tensor Z) :
  training l = false -> pure_M (GraphVAE_forward l x ei).
Proof.
  intros Ht. unfold GraphVAE_forward.
  do 6 (apply pure_bind; [apply pure_lift|]; intros ?).
  apply pure_bind; [apply pure_propagate; exact Ht|]. intros out.
  repeat (apply pure_bind; [apply pure_lift|]; intros ?).
  apply pure_lift.
Qed.

Lemma pure_apply_layers (ls : list GraphVAE) (ei : tensor Z) :
  Forall (fun l => training l = false) ls ->
  forall x, pure_M (apply_layers ls x ei).
Proof.
  induction 1 as [|l ls Hl _ IH]; intros x; simpl.
  - apply pure_ret.
  - apply pure_bind; [apply pure_GraphVAE_forward; exact Hl|]. exact IH.
Qed.

Lemma eval_layers_not_training (m : VAE_GNN) :
  Forall (fun l => training l = false) (layers (VAE_GNN_eval m)).
Proof.
  unfold VAE_GNN_eval, VAE_GNN_train. simpl.
  apply Forall_forall. intros l Hl. apply in_map_iff in Hl.
  destruct Hl as [l0 [<- _]]. reflexivity.
Qed.

(** C7, as the code has it: once the model is in evaluation mode
    ([model.eval()]), [encode] neither reads nor advances the random
    generator, so two calls on the same input return the same result
    whatever the generator state of each call. *)
Theorem encode_eval_deterministic
    (m : VAE_GNN) (x : tensor R) (edge_index : tensor Z) (g g' : Gen) :
  fst (encode (VAE_GNN_eval m) x edge_index g)
  = fst (encode (VAE_GNN_eval m) x edge_index g')
  /\ snd (encode (VAE_GNN_eval m) x edge_index g) = g.
Proof.
  assert (P : pure_M (encode (VAE_GNN_eval m) x edge_index)).
  { unfold encode.
    apply pure_bind;
      [apply pure_apply_layers; apply eval_layers_not_training|].
    intros h. repeat (apply pure_bind; [apply pure_lift|]; intros ?).
    apply pure_ret. }
  destruct P as [r Hr]. rewrite (Hr g), (Hr g'). auto.
Qed.

Lemma sqrt_c7_pos : (0 < sqrt (100 / 81 + 1 / 100000))%R.
Proof. apply sqrt_lt_R0. lra. Qed.

Lemma first_mu_call1 :
  first_mu (fst (encode vae_small (Data.x (graph_of propane))
                   (Data.edge_index (graph_of propane)) gen_keep12))
  = (10 / 9 / sqrt (100 / 81 + 1 / 100000))%R.
Proof.
  dropout_active.
  cbv -[Rplus Rmult Rdiv Rinv Rminus Ropp exp sqrt INR IZR].
  zero_scores. rewrite exp_0. change (INR 2) with 2%R.
  repeat match goal with
  | |- context [sqrt ?a] =>
      lazymatch a with
      | (100 / 81 + 1 / 100000)%R => fail
      | _ => replace a with (100 / 81 + 1 / 100000)%R by field
      end
  end.
  pose proof sqrt_c7_pos as Hs.
  set (s := sqrt (100 / 81 + 1 / 100000)) in *.
  field. lra.
Qed.

Lemma first_mu_call2 :
  first_mu (fst (encode vae_small (Data.x (graph_of propane))
                   (Data.edge_index (graph_of propane))
                   (snd (encode vae_small (Data.x (graph_of propane))
                           (Data.edge_index (graph_of propane)) gen_keep12))))
  = 0%R.
Proof.
  dropout_active.
  cbv -[Rplus Rmult Rdiv Rinv Rminus Ropp exp sqrt INR IZR].
  change (INR 2) with 2%R.
  repeat match goal with
  | |- context [sqrt ?a] =>
      lazymatch a with
      | (1 / 100000)%R => fail
      | _ => replace a with (1 / 100000)%R by field
      end
  end.
  assert (Hs : (0 < sqrt (1 / 100000))%R) by (apply sqrt_lt_R0; lra).
  set (s := sqrt (1 / 100000)) in *.
  field. lra.
Qed.

(** C7 fails on a freshly built model, which is in training mode: on
    propane (3 nodes, 2 bonds) with fixed parameters, the second of two
    successive [encode] calls draws another [Dropout] mask than the first and
    returns another mean. *)
Lemma encode_training_not_deterministic :
  fst (encode vae_small (Data.x (graph_of propane))
         (Data.edge_index (graph_of propane)) gen_keep12)
  <> fst (encode vae_small (Data.x (graph_of propane))
            (Data.edge_index (graph_of propane))
            (snd (encode vae_small (Data.x (graph_of propane))
                    (Data.edge_index (graph_of propane)) gen_keep12))).
Proof.
  intros H. apply (f_equal first_mu) in H.
  rewrite first_mu_call1, first_mu_call2 in H.
  pose proof sqrt_c7_pos as Hs.
  assert (Hpos : (0 < 10 / 9 / sqrt (100 / 81 + 1 / 100000))%R).
  { apply Rdiv_lt_0_compat; [lra|exact Hs]. }
  lra.
Qed.

(** ** What [message] and [propagate] compute *)

Lemma in_rangeb3 (a b c i j k : nat) :
  i < a -> j < b -> k < c -> in_rangeb [a; b; c] [i; j; k] = true.
Proof.
  intros Hi Hj Hk. simpl.
  apply Nat.ltb_lt in Hi, Hj, Hk. rewrite Hi, Hj, Hk. reflexivity.
Qed.

Lemma bidx_keepdim (a b c i j k : nat) :
  i < a -> j < b -> bidx [a; b; 1] [i; j; k] = [i; j; 0].
Proof.
  intros Hi Hj. unfold bidx. simpl.
  destruct (Nat.eqb_spec a 1), (Nat.eqb_spec b 1);
    repeat f_equal; lia.
Qed.

(** In evaluation mode [message] weighs [V_j[i, j, :]] by the softmax of
    the scores along axis 1 of its arguments: the normalisation runs over
    all positions [j'] of that axis, whatever their target node. *)
Lemma message_eval_value (l : GraphVAE) (Q_i K_j V_j : tensor R)
    (a b c : nat) (g : Gen) :
  training l = false ->
  shape Q_i = [a; b; c] -> shape K_j = [a; b; c] -> shape V_j = [a; b; c] ->
  exists msg,
    message l Q_i K_j V_j g = (Ok msg, g)
    /\ shape msg = [a; b; c]
    /\ forall i j k, i < a -> j < b -> k < c ->
         get 0%R msg [i; j; k]
         = (exp (message_score l Q_i K_j i j)
            / rsum (map (fun j' => exp (message_score l Q_i K_j i j'))
                      (seq 0 b))
            * get 0%R V_j [i; j; k])%R.
Proof.
  intros Ht HQ HK HV. unfold message.
  rewrite (bind_lift _ _ (binop_same_shape Rmult Q_i K_j
                            (eq_trans HK (eq_sym HQ)))).
  set (qk := tabulate (shape Q_i)
               (fun idx => (get 0 Q_i idx * get 0 K_j idx)%R)).
  assert (Hqk : forall i j k, i < a -> j < b -> k < c ->
            get 0%R qk [i; j; k]
            = (get 0 Q_i [i; j; k] * get 0 K_j [i; j; k])%R).
  { intros i j k Hi Hj Hk. unfold qk. rewrite HQ.
    rewrite get_tabulate by (apply in_rangeb3; assumption). reflexivity. }
  set (sm := sum_last_keepdim qk).
  assert (Hsm : sm = tabulate [a; b; 1] (fun idx =>
            rsum (map (fun k => get 0%R qk (removelast idx ++ [k]))
                    (seq 0 c)))).
  { unfold sm, sum_last_keepdim. unfold qk at 1. simpl shape.
    rewrite HQ. reflexivity. }
  set (f := fun s : R => (s / sqrt (INR (out_channels l)))%R).
  set (score0 := tmap f sm).
  assert (S0 : shape score0 = [a; b; 1]) by (unfold score0; rewrite Hsm; reflexivity).
  assert (G0 : forall i j, i < a -> j < b ->
            get 0%R score0 [i; j; 0] = message_score l Q_i K_j i j).
  { intros i j Hi Hj. unfold score0.
    rewrite (@get_tmap _ _ f 0%R 0%R sm [i; j; 0]).
    - unfold f, message_score. f_equal. rewrite Hsm.
      rewrite get_tabulate by (apply in_rangeb3; lia).
      rewrite HQ. simpl nth. f_equal. apply map_seq_ext.
      intros k Hk. simpl. apply Hqk; assumption.
    - rewrite Hsm. apply wfT_tabulate.
    - rewrite Hsm. simpl shape. apply in_rangeb3; lia. }
  assert (Hsoft : softmax score0 1
            = Ok (tabulate [a; b; 1] (fun idx =>
                    Rdiv (exp (get 0%R score0 idx))
                      (rsum (map (fun k => exp (get 0%R score0 (set_nth 1 k idx)))
                               (seq 0 b)))))).
  { unfold softmax, rank. rewrite S0. reflexivity. }
  rewrite (bind_lift _ _ Hsoft).
  set (score1 := tabulate [a; b; 1] _).
  rewrite Ht. unfold dropout. cbn [negb orb]. unfold bind at 1. unfold ret.
  unfold lift, mul, binop.
  change (shape score1) with [a; b; 1].
  rewrite HV, broadcast_shapes_keepdim.
  eexists. split; [reflexivity|]. split; [reflexivity|].
  intros i j k Hi Hj Hk.
  rewrite get_tabulate by (apply in_rangeb3; assumption).
  rewrite (bidx_keepdim c k Hi Hj).
  rewrite (bidx_same [a; b; c] [i; j; k]) by (apply in_rangeb3; assumption).
  f_equal. unfold score1.
  rewrite get_tabulate by (apply in_rangeb3; lia).
  rewrite (G0 i j Hi Hj). f_equal. f_equal.
  apply map_seq_ext. intros j' Hj'. simpl set_nth.
  rewrite (G0 i j' Hi Hj'). reflexivity.
Qed.

(** ** The attention of [message] against the specified attention *)

(** C1 on one bond between two atoms, two heads, one channel, zero queries
    and values one: every node has a single incoming edge, so the softmax
    over its incoming edges weighs that edge 1 and the specified aggregate
    is 1; [propagate] returns 1/2 everywhere, because [message] takes the
    softmax along axis 1 of the gathered scores.  This holds with the
    default [node_dim = -2] of the layer and also if the layer gathered
    along axis 0. *)
Theorem message_softmax_not_over_incoming_edges (g : Gen) :
  (exists out g',
     propagate attn_layer one_bond Q0 Q0 V1 g = (Ok out, g')
     /\ shape out = [2; 2; 1]
     /\ forall i h, i < 2 -> h < 2 -> get 0%R out [i; h; 0] = (1 / 2)%R)
  /\ (exists out g',
        propagate (GraphVAE_set_node_dim 0 attn_layer) one_bond Q0 Q0 V1 g
        = (Ok out, g')
        /\ shape out = [2; 2; 1]
        /\ forall i h, i < 2 -> h < 2 -> get 0%R out [i; h; 0] = (1 / 2)%R)
  /\ (forall i h, i < 2 -> h < 2 ->
        AttentionSpec.aggregate 1 Q0 Q0 V1 (edges_of one_bond) i h 0 = 1%R).
Proof.
  split; [|split].
  - eexists. eexists. split; [reflexivity|]. split; [reflexivity|].
    intros [|[|i]] [|[|h]] Hi Hh; try lia; eval_real.
  - eexists. eexists. split; [reflexivity|]. split; [reflexivity|].
    intros [|[|i]] [|[|h]] Hi Hh; try lia; eval_real.
  - intros [|[|i]] [|[|h]] Hi Hh; try lia; eval_real.
Qed.

(** ** Inputs on which the layer raises *)

(** C2 at two valid graphs: a node with two features and no edge, given to
    [GraphVAE(2, 3)], raises at the residual addition; pentane, given to
    [GraphVAE(1, 2)] with the default 4 heads, raises in [propagate],
    which looks up atom 4 along the head axis. *)
Theorem GraphVAE_forward_raises_on_valid_graphs
    (w : LayerInit) (p : R) (g : Gen) :
  fst (GraphVAE_forward (GraphVAE_init 2 3 default_heads p w)
         (mkT [1; 2] [1; 2]%R) (mkT [2; 0] []) g) = Raise RuntimeError
  /\ fst (GraphVAE_forward (GraphVAE_init 1 2 default_heads p w)
            (Data.x (graph_of pentane)) (Data.edge_index (graph_of pentane)) g)
     = Raise IndexError.
Proof. split; reflexivity. Qed.

Lemma pentane_graph_shapes :
  mol_to_graph pentane = Ok (graph_of pentane)
  /\ shape (Data.x (graph_of pentane)) = [5; 1]
  /\ shape (Data.edge_index (graph_of pentane)) = [2; 8].
Proof. repeat split. Qed.

(** C8 on methane, a single atom without bonds: [mol_to_graph] gives it an
    [edge_index] of shape [[0]], and no layer, whatever its parameters and
    mode, completes [forward] on that graph. *)
Theorem GraphVAE_forward_raises_on_isolated_atom (l : GraphVAE) (g : Gen) :
  mol_to_graph methane = Ok (graph_of methane)
  /\ shape (Data.x (graph_of methane)) = [1; 1]
  /\ shape (Data.edge_index (graph_of methane)) = [0]
  /\ is_ok (fst (GraphVAE_forward l (Data.x (graph_of methane))
                   (Data.edge_index (graph_of methane)) g)) = false.
Proof.
  split; [reflexivity|]. split; [reflexivity|]. split; [reflexivity|].
  unfold GraphVAE_forward.
  destruct (linear (lin_q l) _) as [q|]; [rewrite bind_lift_ok|reflexivity].
  destruct (view_infer q _) as [Q|]; [rewrite bind_lift_ok|reflexivity].
  destruct (linear (lin_k l) _) as [k|]; [rewrite bind_lift_ok|reflexivity].
  destruct (view_infer k _) as [K|]; [rewrite bind_lift_ok|reflexivity].
  destruct (linear (lin_v l) _) as [v|]; [rewrite bind_lift_ok|reflexivity].
  destruct (view_infer v _) as [V|]; [rewrite bind_lift_ok|reflexivity].
  reflexivity.
Qed.

(** With a layer [GraphVAE(1, 2)] the exception is the [ValueError] of
    [propagate]'s check that [edge_index] is two-dimensional. *)
Lemma GraphVAE_forward_methane_ValueError (w : LayerInit) (p : R) (g : Gen) :
  fst (GraphVAE_forward (GraphVAE_init 1 2 default_heads p w)
         (Data.x (graph_of methane)) (Data.edge_index (graph_of methane)) g)
  = Raise ValueError.
Proof. reflexivity. Qed.

(** The same atom with a well-formed empty [edge_index] of shape [2 x 0]
    goes through every layer [GraphVAE(1, c)] and comes out as the
    residual-only path. *)
Lemma GraphVAE_forward_isolated_node_residual
    (w : LayerInit) (p : R) (c h : nat) (b : bool) (g : Gen) :
  0 < h * c ->
  let l := GraphVAE_set_training b (GraphVAE_init 1 c h p w) in
  fst (GraphVAE_forward l (Data.x (graph_of methane)) (mkT [2; 0] []) g)
  = residual_only l (Data.x (graph_of methane))
  /\ exists y, residual_only l (Data.x (graph_of methane)) = Ok y
               /\ shape y = [1; c].
Proof.
  intros Hpos l.
  assert (Wl : wf_GraphVAE 1 l) by (repeat split).
  split.
  - apply (@GraphVAE_forward_no_edges 1 l (Data.x (graph_of methane)) 1 g
             Wl eq_refl Hpos eq_refl).
  - unfold residual_only.
    apply (@project_residual_norm_ok 1 l
             (zeros [1; heads l * out_channels l])
             (Data.x (graph_of methane)) 1 Wl eq_refl eq_refl).
    right. reflexivity.
Qed.

(** ** The theorems at concrete inputs *)

Lemma mol_to_graph_invariant_witness :
  exists g,
    mol_to_graph propane = Ok g
    /\ num_nodes g = length (GetAtoms propane)
    /\ (forall i j, In (i, j) (edges g) ->
          (0 <= i < Z.of_nat (num_nodes g))%Z
          /\ (0 <= j < Z.of_nat (num_nodes g))%Z
          /\ In (j, i) (edges g))
    /\ (forall b, In b (GetBonds propane) ->
          In (Z.of_nat (GetBeginAtomIdx b), Z.of_nat (GetEndAtomIdx b)) (edges g)
          /\ In (Z.of_nat (GetEndAtomIdx b), Z.of_nat (GetBeginAtomIdx b)) (edges g)).
Proof.
  apply (@mol_to_graph_invariant propane).
  unfold wf_mol. simpl. repeat constructor.
Defined.

Lemma reparameterize32_spec_witness :
  exists z,
    reparameterize32 exp32 mu_12 logvar_00 gen32_zero
    = (Ok z, advance32 (numel [2]) gen32_zero)
    /\ shape z = [2]
    /\ forall idx, in_rangeb [2] idx = true ->
         let eps :=
           normal_draw32 gen32_zero (cursor32 gen32_zero + ravel [2] idx) in
         let std := exp32 (f32_mul f32_half (get f32_zero logvar_00 idx)) in
         get f32_zero z idx
         = f32_add (get f32_zero mu_12 idx) (f32_mul eps std)
         /\ (is_zero32 eps = true -> is_finite32 std = true ->
             f32_same (get f32_zero z idx) (get f32_zero mu_12 idx))
         /\ (is_zero32 eps = true -> is_finite32 std = false ->
             get f32_zero z idx = S754_nan).
Proof.
  apply (@reparameterize32_spec exp32 mu_12 logvar_00 gen32_zero);
    reflexivity.
Defined.

Lemma loss_function_spec_witness :
  exists BCE KL,
    binary_cross_entropy_with_logits_sum (mkT [1] [0%R]) (mkT [1] [1%R]) = Ok BCE
    /\ KL = (- 0.5
             * rsum (map (fun k =>
                            1 + nth k [0; 0] 0
                            - nth k [1; 2] 0 * nth k [1; 2] 0
                            - exp (nth k [0; 0] 0))
                       (seq 0%nat (numel [2%nat]))))%R
    /\ beta = 1%R
    /\ loss_function (mkT [1] [0%R]) (mkT [1] [1%R])
         (mkT [2] [1; 2]%R) (mkT [2] [0; 0]%R)
       = Ok (BCE + beta * KL)%R.
Proof.
  apply (@loss_function_spec (mkT [1] [0%R]) (mkT [1] [1%R])
           (mkT [2] [1; 2]%R) (mkT [2] [0; 0]%R)); reflexivity.
Defined.

Lemma VAE_GNN_forward_returns_None_witness :
  PyNone = PyNone
  /\ exists mu logvar g1 z out,
       encode vae_small (Data.x (graph_of propane))
         (Data.edge_index (graph_of propane)) gen_keep12
       = (Ok (mu, logvar), g1)
       /\ reparameterize mu logvar g1
          = (Ok z, snd (VAE_GNN_forward vae_small (Data.x (graph_of propane))
                          (Data.edge_index (graph_of propane)) gen_keep12))
       /\ decode vae_small z = Ok out.
Proof.
  apply (proj1 (VAE_GNN_forward_returns_None vae_small
                  (Data.x (graph_of propane))
                  (Data.edge_index (graph_of propane)) gen_keep12
                  (snd (VAE_GNN_forward vae_small (Data.x (graph_of propane))
                          (Data.edge_index (graph_of propane)) gen_keep12))
                  PyNone)).
  dropout_active. reflexivity.
Defined.

Lemma GraphVAE_forward_needs_residual_shape_witness :
  (feature_dim (Data.x (graph_of propane)) = 1
   /\ (feature_dim (Data.x (graph_of propane))
       = out_channels (GraphVAE_init 1 2 default_heads default_dropout init_ones)
       \/ feature_dim (Data.x (graph_of propane)) = 1))
  /\ fst (GraphVAE_forward
            (GraphVAE_init 2 3 default_heads default_dropout init_ones)
            (mkT [1; 2] [1; 2]%R) (mkT [2; 0] []) gen0)
     = Raise RuntimeError.
Proof.
  split.
  - apply (proj1 (@GraphVAE_forward_needs_residual_shape 1
                    (GraphVAE_init 1 2 default_heads default_dropout init_ones)
                    (Data.x (graph_of propane))
                    (Data.edge_index (graph_of propane)) gen0
                    ltac:(repeat split))).
    dropout_active. reflexivity.
  - apply (proj2 (@GraphVAE_forward_needs_residual_shape 2
                    (GraphVAE_init 2 3 default_heads default_dropout init_ones)
                    (mkT [1; 2] [1; 2]%R) (mkT [2; 0] []) gen0
                    ltac:(repeat split)) 1 0);
      try reflexivity; try (unfold default_heads; simpl; lia).
Defined.

(** * Further properties of the code *)

(** ** [loss_function]: sign of the two terms *)

Lemma rsum_map_nonpos (f : nat -> R) (n : nat) :
  (forall k, k < n -> (f k <= 0)%R) -> (rsum (map f (seq 0 n)) <= 0)%R.
Proof.
  induction n as [|n IH]; intros H; [simpl; lra|].
  rewrite seq_S, map_app. simpl.
  assert (A : forall l a, rsum (l ++ [a]) = (rsum l + a)%R).
  { induction l as [|b l IHl]; intros a; simpl; [lra|]. rewrite IHl. lra. }
  rewrite A. specialize (IH (fun k Hk => H k (Nat.lt_lt_succ_r _ _ Hk))).
  specialize (H n (Nat.lt_succ_diag_r n)). lra.
Qed.

Lemma KL_entry_nonpos (m v : R) : (1 + v - m * m - exp v <= 0)%R.
Proof. pose proof (exp_ineq1_le v). nra. Qed.

Lemma KL_term_ok_nonneg (mu logvar : tensor R) :
  wfT mu -> wfT logvar -> shape logvar = shape mu ->
  exists KL, KL_term mu logvar = Ok KL /\ (0 <= KL)%R.
Proof.
  intros Wmu Wlv Esh.
  rewrite (KL_term_same_shape Wmu Wlv Esh).
  eexists. split; [reflexivity|].
  match goal with
  | |- context [rsum (map ?f _)] =>
      pose proof (rsum_map_nonpos f (n := numel (shape mu))
                    (fun k _ => KL_entry_nonpos _ _)) as Hs
  end.
  lra.
Qed.

(** X1: for a mean and a log-variance of one shape the KL term of
    [loss_function] is never negative, whatever the entries, and it is zero
    when every mean entry and every log-variance entry is zero. *)
Theorem KL_term_nonneg (mu logvar : tensor R) :
  wfT mu -> wfT logvar -> shape logvar = shape mu ->
  exists KL,
    KL_term mu logvar = Ok KL
    /\ (0 <= KL)%R
    /\ ((forall k, k < numel (shape mu) ->
           nth k (data mu) 0%R = 0%R /\ nth k (data logvar) 0%R = 0%R)
        -> KL = 0%R).
Proof.
  intros Wmu Wlv Esh.
  rewrite (KL_term_same_shape Wmu Wlv Esh).
  set (f := fun k : nat =>
              (1 + nth k (data logvar) 0 - nth k (data mu) 0 * nth k (data mu) 0
               - exp (nth k (data logvar) 0))%R).
  assert (Hf : forall k, k < numel (shape mu) -> (f k <= 0)%R)
    by (intros k _; apply KL_entry_nonpos).
  pose proof (rsum_map_nonpos f Hf) as Hs.
  eexists. split; [reflexivity|]. fold f. split; [lra|].
  intros H. rewrite rsum_zero; [lra|].
  intros v Hv. apply in_map_iff in Hv. destruct Hv as [k [<- Hk]].
  apply in_seq in Hk. unfold f.
  destruct (H k ltac:(lia)) as [-> ->]. rewrite exp_0. lra.
Qed.

Lemma bce_logit_nonneg (v t : R) :
  (0 <= t <= 1)%R -> (0 <= bce_logit v t)%R.
Proof.
  intros Ht. unfold bce_logit.
  pose proof (exp_pos (- v)) as He.
  assert (H0 : (0 < ln (1 + exp (- v)))%R).
  { rewrite <- ln_1. apply ln_increasing; lra. }
  assert (H1 : (- v < ln (1 + exp (- v)))%R).
  { rewrite <- (ln_exp (- v)) at 1. apply ln_increasing; lra. }
  destruct (Rle_dec 0 v); nra.
Qed.

Lemma bce_sum_nonneg (input target : list R) :
  (forall t, In t target -> (0 <= t <= 1)%R) ->
  (0 <= rsum (map (fun it => bce_logit (fst it) (snd it))
                (combine input target)))%R.
Proof.
  revert target. induction input as [|v input IH]; intros [|t target] H;
    simpl; try lra.
  pose proof (bce_logit_nonneg v (H t (or_introl eq_refl))).
  specialize (IH target (fun t' Ht' => H t' (or_intror Ht'))). lra.
Qed.

(** X2: when every target entry lies in [[0, 1]], the reconstruction term
    and therefore the whole loss is never negative. *)
Theorem loss_function_nonneg (recon_x x mu logvar : tensor R) :
  shape x = shape recon_x ->
  wfT mu -> wfT logvar -> shape logvar = shape mu ->
  (forall t, In t (data x) -> (0 <= t <= 1)%R) ->
  exists L, loss_function recon_x x mu logvar = Ok L /\ (0 <= L)%R.
Proof.
  intros Ex Wmu Wlv Esh Ht.
  destruct (KL_term_ok_nonneg Wmu Wlv Esh) as (KL & HKL & Hpos).
  unfold loss_function, binary_cross_entropy_with_logits_sum.
  rewrite Ex, shape_eqb_refl, HKL. simpl res_bind.
  eexists. split; [reflexivity|].
  pose proof (bce_sum_nonneg (data recon_x) (data x) Ht).
  unfold beta. lra.
Qed.

(** ** [loss_function]: when it raises *)

Lemma broadcast_rev_again :
  forall a b s, broadcast_rev a b = Some s -> broadcast_rev s a = Some s.
Proof.
  induction a as [|m a IH]; intros [|n b] s H; simpl in H.
  - injection H as <-. reflexivity.
  - injection H as <-. reflexivity.
  - injection H as <-. apply broadcast_rev_same.
  - destruct (broadcast_rev a b) as [r|] eqn:Hr; [|discriminate].
    specialize (IH b r Hr).
    destruct (Nat.eqb_spec m n) as [->|Hmn].
    + injection H as <-. simpl. rewrite IH, Nat.eqb_refl. reflexivity.
    + destruct (Nat.eqb_spec m 1) as [->|Hm].
      * injection H as <-. simpl. rewrite IH.
        destruct (Nat.eqb_spec n 1); [lia|].
        destruct (Nat.eqb_spec n 1); [lia|]. reflexivity.
      * destruct (Nat.eqb_spec n 1) as [->|Hn]; [|discriminate].
        injection H as <-. simpl. rewrite IH, Nat.eqb_refl. reflexivity.
Qed.

Lemma broadcast_shapes_again (a b s : list nat) :
  broadcast_shapes a b = Some s -> broadcast_shapes s a = Some s.
Proof.
  unfold broadcast_shapes. intros H.
  destruct (broadcast_rev (rev a) (rev b)) as [r|] eqn:Hr; [|discriminate].
  simpl in H. injection H as <-. rewrite rev_involutive.
  rewrite (broadcast_rev_again _ _ Hr). reflexivity.
Qed.

(** X3: [loss_function] raises [ValueError] when target and reconstruction
    differ in shape, whatever the other arguments; with equal shapes it
    raises [RuntimeError] when the shapes of [logvar] and [mu] do not
    broadcast, and returns a loss in every other case. *)
Theorem loss_function_errors (recon_x x mu logvar : tensor R) :
  (shape x <> shape recon_x ->
   loss_function recon_x x mu logvar = Raise ValueError)
  /\ (shape x = shape recon_x ->
      broadcast_shapes (shape logvar) (shape mu) = None ->
      loss_function recon_x x mu logvar = Raise RuntimeError)
  /\ (shape x = shape recon_x ->
      broadcast_shapes (shape logvar) (shape mu) <> None ->
      exists L, loss_function recon_x x mu logvar = Ok L).
Proof.
  unfold loss_function, binary_cross_entropy_with_logits_sum.
  split; [|split].
  - intros Hne.
    destruct (shape_eqb (shape x) (shape recon_x)) eqn:E; [|reflexivity].
    apply shape_eqb_eq in E. contradiction.
  - intros -> Hb. rewrite shape_eqb_refl. simpl res_bind.
    unfold KL_term, sub, binop. simpl shape. rewrite Hb. reflexivity.
  - intros -> Hb. rewrite shape_eqb_refl. simpl res_bind.
    destruct (broadcast_shapes (shape logvar) (shape mu)) as [s|] eqn:Hs;
      [|contradiction].
    unfold KL_term, sub, binop. simpl shape. rewrite Hs. simpl res_bind.
    simpl shape. rewrite (broadcast_shapes_again _ _ Hs). simpl res_bind.
    eexists. reflexivity.
Qed.

(** ** [mol_to_graph]: what the two tensors hold *)

Lemma concat_singletons {A B} (f : A -> B) (l : list A) :
  concat (map (fun a => [f a]) l) = map f l.
Proof. induction l as [|a l IH]; simpl; [reflexivity|]. rewrite IH. reflexivity. Qed.

Lemma mol_to_graph_x (mol : Mol) (g : Data.t) :
  mol_to_graph mol = Ok g ->
  Data.x g = tmap IZR (match GetAtoms mol with
                       | [] => mkT [0] []
                       | _ :: _ => mkT [length (GetAtoms mol); 1]
                                     (map GetAtomicNum (GetAtoms mol))
                       end).
Proof.
  unfold mol_to_graph. intros H.
  destruct (tensor_of_rows (edge_rows (GetBonds mol))) as [e|]; [|discriminate].
  simpl in H. destruct (transpose 0%Z e) as [t|]; [|discriminate].
  simpl in H. rewrite tensor_of_rows_nodes in H. simpl in H.
  injection H as <-. simpl. unfold node_rows.
  rewrite concat_singletons. reflexivity.
Qed.

(** X4: [mol_to_graph] never raises; [x] has one row per atom and one
    column, the row of atom [i] holding its atomic number; for a molecule
    without atoms [x] is the 1-D tensor of shape [[0]]. *)
Theorem mol_to_graph_node_features (mol : Mol) :
  exists g,
    mol_to_graph mol = Ok g
    /\ shape (Data.x g)
       = match GetAtoms mol with
         | [] => [0]
         | _ :: _ => [length (GetAtoms mol); 1]
         end
    /\ forall i, i < length (GetAtoms mol) ->
         get 0%R (Data.x g) [i; 0]
         = IZR (GetAtomicNum (nth i (GetAtoms mol) (mkAtom 0))).
Proof.
  destruct (mol_to_graph_ok mol) as (g & Hg & _).
  exists g. split; [exact Hg|].
  rewrite (mol_to_graph_x mol Hg).
  destruct (GetAtoms mol) as [|a l] eqn:Ea.
  - split; [reflexivity|]. intros i Hi. simpl in Hi. lia.
  - split; [reflexivity|]. intros i Hi.
    remember (a :: l) as ats eqn:Eats.
    unfold get, tmap. rewrite Eats at 1. cbv iota. subst ats.
    remember (a :: l) as ats eqn:Eats.
    cbn [shape data].
    replace (ravel [length ats; 1] [i; 0]) with i by (simpl; lia).
    rewrite map_map.
    rewrite (nth_indep _ 0%R (IZR (GetAtomicNum (mkAtom 0))))
      by (rewrite length_map; exact Hi).
    apply (map_nth (fun at' => IZR (GetAtomicNum at'))).
Qed.

Lemma edge_pairs_length (bonds : list Bond) :
  length (edge_pairs bonds) = 2 * length bonds.
Proof.
  induction bonds as [|b bs IH]; [reflexivity|].
  change (edge_pairs (b :: bs))
    with ((Z.of_nat (GetBeginAtomIdx b), Z.of_nat (GetEndAtomIdx b))
          :: (Z.of_nat (GetEndAtomIdx b), Z.of_nat (GetBeginAtomIdx b))
          :: edge_pairs bs).
  simpl length. rewrite IH. lia.
Qed.

Lemma edge_pairs_nth (bonds : list Bond) (k : nat) (d : Z * Z) (db : Bond) :
  k < length bonds ->
  nth (2 * k) (edge_pairs bonds) d
  = (Z.of_nat (GetBeginAtomIdx (nth k bonds db)),
     Z.of_nat (GetEndAtomIdx (nth k bonds db)))
  /\ nth (2 * k + 1) (edge_pairs bonds) d
     = (Z.of_nat (GetEndAtomIdx (nth k bonds db)),
        Z.of_nat (GetBeginAtomIdx (nth k bonds db))).
Proof.
  revert k. induction bonds as [|b bs IH]; intros k Hk; simpl in Hk; [lia|].
  change (edge_pairs (b :: bs))
    with ((Z.of_nat (GetBeginAtomIdx b), Z.of_nat (GetEndAtomIdx b))
          :: (Z.of_nat (GetEndAtomIdx b), Z.of_nat (GetBeginAtomIdx b))
          :: edge_pairs bs).
  destruct k as [|k].
  - simpl. auto.
  - replace (2 * S k) with (S (S (2 * k))) by lia.
    replace (S (S (2 * k)) + 1) with (S (S (2 * k + 1))) by lia.
    simpl nth. apply IH. lia.
Qed.

Lemma mol_to_graph_edge_index_shape (mol : Mol) (g : Data.t) :
  mol_to_graph mol = Ok g ->
  shape (Data.edge_index g)
  = match GetBonds mol with
    | [] => [0]
    | _ :: _ => [2; 2 * length (GetBonds mol)]
    end.
Proof.
  unfold mol_to_graph. rewrite edge_rows_pairs, tensor_of_rows_pairs.
  simpl res_bind. intros H.
  pose proof (edge_pairs_length (GetBonds mol)) as Hl.
  destruct (GetBonds mol) as [|b bs] eqn:Eb.
  - simpl in H. rewrite tensor_of_rows_nodes in H. simpl in H.
    injection H as <-. reflexivity.
  - remember (edge_pairs (b :: bs)) as ps eqn:Eps.
    destruct ps as [|p ps]; [simpl in Hl; lia|].
    unfold transpose in H. simpl shape in H. cbv iota in H.
    simpl res_bind in H. rewrite tensor_of_rows_nodes in H. simpl in H.
    injection H as <-. rewrite <- Hl. reflexivity.
Qed.

(** X5: the directed edges of the graph are, in the order of the bonds,
    each bond [(i, j)] followed by its reverse [(j, i)], and nothing else:
    twice as many edges as bonds.  [edge_index] has shape
    [2 x (2 * bonds)], except for a molecule without bonds, where it is the
    1-D tensor of shape [[0]]. *)
Theorem mol_to_graph_edge_layout (mol : Mol) :
  exists g,
    mol_to_graph mol = Ok g
    /\ shape (Data.edge_index g)
       = match GetBonds mol with
         | [] => [0]
         | _ :: _ => [2; 2 * length (GetBonds mol)]
         end
    /\ length (edges g) = 2 * length (GetBonds mol)
    /\ forall k, k < length (GetBonds mol) ->
         let b := nth k (GetBonds mol) (mkBond 0 0) in
         nth (2 * k) (edges g) (0, 0)%Z
         = (Z.of_nat (GetBeginAtomIdx b), Z.of_nat (GetEndAtomIdx b))
         /\ nth (2 * k + 1) (edges g) (0, 0)%Z
            = (Z.of_nat (GetEndAtomIdx b), Z.of_nat (GetBeginAtomIdx b)).
Proof.
  destruct (mol_to_graph_ok mol) as (g & Hg & He & _).
  exists g. split; [exact Hg|]. split; [apply mol_to_graph_edge_index_shape; exact Hg|].
  rewrite He. split; [apply edge_pairs_length|].
  intros k Hk. apply edge_pairs_nth. exact Hk.
Qed.

(** ** [propagate] in evaluation mode, entry by entry *)

Lemma select0_row (ei : tensor Z) (e r : nat) :
  shape ei = [2; e] -> r < 2 ->
  select0 0%Z ei r = Ok (tabulate [e] (fun idx => get 0%Z ei (r :: idx))).
Proof.
  intros Hs Hr. unfold select0. rewrite Hs.
  apply Nat.ltb_lt in Hr. rewrite Hr. reflexivity.
Qed.

Lemma index_select_mid_eq (t : tensor R) (index : tensor Z) (n h c e : nat) :
  shape t = [n; h; c] -> shape index = [e] -> index_okb h index = true ->
  index_select t 1 index
  = Ok (tabulate [n; e; c] (fun idx =>
          get 0%R t
            (set_nth 1 (Z.to_nat (get 0%Z index [nth 1 idx 0])) idx))).
Proof.
  intros Ht Hi Hb. unfold index_select, rank. rewrite Hi, Ht. simpl.
  rewrite Hb. reflexivity.
Qed.

Lemma scatter_sum_mid_eq (src : tensor R) (index : tensor Z) (n e c h : nat) :
  shape src = [n; e; c] -> shape index = [e] -> index_okb h index = true ->
  scatter_sum src index 1 h
  = Ok (tabulate [n; h; c] (fun idx =>
          rsum (map (fun k =>
                       if Z.eqb (get 0%Z index [k]) (Z.of_nat (nth 1 idx 0))
                       then get 0%R src (set_nth 1 k idx)
                       else 0%R)
                  (seq 0 e)))).
Proof.
  intros Hs Hi Hb. unfold scatter_sum, rank. rewrite Hi, Hs. simpl.
  rewrite Nat.eqb_refl, Hb. reflexivity.
Qed.

Lemma get_row (ei : tensor Z) (e r k : nat) :
  k < e ->
  get 0%Z (tabulate [e] (fun idx => get 0%Z ei (r :: idx))) [k]
  = get 0%Z ei [r; k].
Proof.
  intros Hk. rewrite get_tabulate; [reflexivity|].
  simpl. apply Nat.ltb_lt in Hk. rewrite Hk. reflexivity.
Qed.

Lemma propagate_eval_entries (l : GraphVAE) (ei : tensor Z) (Q K V : tensor R)
    (n e : nat) (g : Gen) :
  training l = false -> node_dim l = (-2)%Z ->
  wfT ei -> shape ei = [2; e] -> index_okb (heads l) ei = true ->
  shape Q = [n; heads l; out_channels l] ->
  shape K = [n; heads l; out_channels l] ->
  shape V = [n; heads l; out_channels l] ->
  exists out,
    propagate l ei Q K V g = (Ok out, g)
    /\ shape out = [n; heads l; out_channels l]
    /\ forall i d k, i < n -> d < heads l -> k < out_channels l ->
         get 0%R out [i; d; k]
         = rsum (map (fun e' =>
                        if Z.eqb (get 0%Z ei [1; e']) (Z.of_nat d)
                        then (edge_weight l ei Q K i e'
                              * get 0%R V [i; edge_source ei e'; k])%R
                        else 0%R)
                   (seq 0 e)).
Proof.
  intros Ht Hnd W Hs Hb HQ HK HV.
  set (h := heads l) in *. set (c := out_channels l) in *.
  destruct (@select0_edge_row ei e h 1 W Hs Hb ltac:(lia)) as (dst & Hdst & Sd & Bd).
  destruct (@select0_edge_row ei e h 0 W Hs Hb ltac:(lia)) as (src & Hsrc & Ss & Bs).
  rewrite (select0_row ei Hs (r := 1)) in Hdst by lia. injection Hdst as Edst.
  rewrite (select0_row ei Hs (r := 0)) in Hsrc by lia. injection Hsrc as Esrc.
  pose proof (@index_select_mid_eq Q dst n h c e HQ Sd Bd) as HQi.
  pose proof (@index_select_mid_eq K src n h c e HK Ss Bs) as HKj.
  pose proof (@index_select_mid_eq V src n h c e HV Ss Bs) as HVj.
  set (Q_i := tabulate [n; e; c] _) in HQi.
  set (K_j := tabulate [n; e; c] _) in HKj.
  set (V_j := tabulate [n; e; c] _) in HVj.
  destruct (@message_eval_value l Q_i K_j V_j n e c g Ht eq_refl eq_refl eq_refl)
    as (msg & Hm & Sm & Vm).
  assert (ND : forall a b d : nat, norm_dim (length [a; b; d]) (-2) = Ok 1)
    by reflexivity.
  unfold propagate. rewrite Hs. cbv beta iota.
  rewrite (select0_row ei Hs (r := 1)) by lia.
  rewrite (select0_row ei Hs (r := 0)) by lia.
  rewrite Edst, Esrc.
  unfold rank. rewrite HQ, HK, HV, Hnd, !ND, !bind_lift_ok.
  rewrite HQi, bind_lift_ok, bind_lift_ok, HKj, bind_lift_ok, bind_lift_ok.
  simpl nth. rewrite Nat.eqb_refl. change (negb true) with false. cbv iota.
  rewrite HVj, bind_lift_ok.
  erewrite bind_run by exact Hm. rewrite Sm, ND, bind_lift_ok.
  simpl nth. unfold lift.
  rewrite (@scatter_sum_mid_eq msg dst n e c h Sm Sd Bd).
  eexists. split; [reflexivity|]. split; [reflexivity|].
  intros i d k Hi Hd Hk.
  rewrite get_tabulate by (apply in_rangeb3; assumption).
  f_equal. apply map_seq_ext. intros e' He'. simpl nth. simpl set_nth.
  assert (Gd : get 0%Z dst [e'] = get 0%Z ei [1; e'])
    by (rewrite <- Edst; apply get_row; exact He').
  rewrite Gd.
  destruct (Z.eqb (get 0%Z ei [1; e']) (Z.of_nat d)); [|reflexivity].
  rewrite (Vm i e' k Hi He' Hk).
  assert (Gv : forall k', k' < c ->
            get 0%R V_j [i; e'; k'] = get 0%R V [i; edge_source ei e'; k']).
  { intros k' Hk'. unfold V_j.
    rewrite get_tabulate by (apply in_rangeb3; assumption).
    simpl nth. simpl set_nth. rewrite <- Esrc, get_row by exact He'.
    reflexivity. }
  assert (Gs : forall e2, e2 < e ->
            message_score l Q_i K_j i e2 = edge_score l ei Q K i e2).
  { intros e2 He2. unfold message_score, edge_score. f_equal.
    change (nth 2 (shape Q_i) 0) with c. fold c.
    f_equal. apply map_seq_ext. intros k' Hk'. unfold Q_i, K_j.
    rewrite !get_tabulate by (apply in_rangeb3; assumption).
    simpl nth. simpl set_nth.
    rewrite <- Edst, <- Esrc, !get_row by exact He2.
    reflexivity. }
  rewrite (Gv k Hk), (Gs e' He'). unfold edge_weight. rewrite Hs. simpl nth.
  f_equal. f_equal. f_equal. apply map_seq_ext. intros e2 He2.
  rewrite (Gs e2 He2). reflexivity.
Qed.

Lemma rsum_app_one (l : list R) (a : R) : rsum (l ++ [a]) = (rsum l + a)%R.
Proof. induction l as [|b l IH]; simpl; [lra|]. rewrite IH. lra. Qed.

Lemma rsum_map_div (a : nat -> R) (s : R) (n : nat) :
  rsum (map (fun k => a k / s)%R (seq 0 n))
  = (rsum (map a (seq 0 n)) / s)%R.
Proof.
  induction n as [|n IH]; [simpl; unfold Rdiv; ring|].
  rewrite seq_S, !map_app. simpl map. rewrite !rsum_app_one, IH.
  unfold Rdiv. ring.
Qed.

Lemma rsum_map_exp_pos (a : nat -> R) (n : nat) :
  0 < n -> (0 < rsum (map (fun k => exp (a k)) (seq 0 n)))%R.
Proof.
  induction n as [|n IH]; intros Hn; [lia|].
  rewrite seq_S, map_app. simpl map. rewrite rsum_app_one.
  pose proof (exp_pos (a n)) as He. simpl Nat.add.
  destruct n as [|n]; [simpl in *; lra|].
  assert (Hp : 0 < S n) by lia. specialize (IH Hp). lra.
Qed.


(** ** [propagate] in either mode *)

Lemma propagate_scatter (l : GraphVAE) (ei : tensor Z) (Q K V : tensor R)
    (n h c e : nat) (g : Gen) :
  node_dim l = (-2)%Z ->
  wfT ei -> shape ei = [2; e] -> index_okb h ei = true ->
  shape Q = [n; h; c] -> shape K = [n; h; c] -> shape V = [n; h; c] ->
  exists (msg : tensor R) (g' : Gen),
    shape msg = [n; e; c]
    /\ propagate l ei Q K V g
       = (Ok (tabulate [n; h; c] (fun idx =>
                rsum (map (fun k : nat =>
                             if Z.eqb (get 0%Z ei [1; k])
                                      (Z.of_nat (nth 1 idx 0))
                             then get 0%R msg (set_nth 1 k idx)
                             else 0%R)
                        (seq 0 e)))), g').
Proof.
  intros Hnd W Hs Hb HQ HK HV.
  destruct (@select0_edge_row ei e h 1 W Hs Hb ltac:(lia)) as (dst & Hdst & Sd & Bd).
  destruct (@select0_edge_row ei e h 0 W Hs Hb ltac:(lia)) as (src & Hsrc & Ss & Bs).
  rewrite (select0_row ei Hs (r := 1)) in Hdst by lia. injection Hdst as Edst.
  destruct (@index_select_mid Q dst n h c e HQ Sd Bd) as (Q_i & HQi & SQi).
  destruct (@index_select_mid K src n h c e HK Ss Bs) as (K_j & HKj & SKj).
  destruct (@index_select_mid V src n h c e HV Ss Bs) as (V_j & HVj & SVj).
  destruct (@message_ok l Q_i K_j V_j n e c g SQi SKj SVj) as (msg & g' & Hm & Sm).
  assert (ND : forall a b d : nat, norm_dim (length [a; b; d]) (-2) = Ok 1)
    by reflexivity.
  exists msg, g'. split; [exact Sm|].
  unfold propagate. rewrite Hs. cbv beta iota.
  rewrite (select0_row ei Hs (r := 1)) by lia.
  rewrite Hsrc, Edst.
  unfold rank. rewrite HQ, HK, HV, Hnd, !ND, !bind_lift_ok.
  rewrite HQi, bind_lift_ok, bind_lift_ok, HKj, bind_lift_ok, bind_lift_ok.
  simpl nth. rewrite Nat.eqb_refl. change (negb true) with false. cbv iota.
  rewrite HVj, bind_lift_ok.
  erewrite bind_run by exact Hm. rewrite Sm, ND, bind_lift_ok.
  simpl nth. unfold lift.
  rewrite (@scatter_sum_mid_eq msg dst n e c h Sm Sd Bd).
  f_equal. f_equal. apply tabulate_ext. intros idx Hidx.
  f_equal. apply map_seq_ext. intros k Hk.
  rewrite <- Edst, get_row by exact Hk. reflexivity.
Qed.

(** X7: in either mode and for every dropout rate, a slot that no edge
    targets receives a zero aggregate from [propagate], whatever the
    queries, keys and values and whatever mask [Dropout] draws. *)
Theorem propagate_untargeted_slot_zero (in_channels c h : nat) (p : R)
    (w : LayerInit) (b : bool) (ei : tensor Z) (Q K V : tensor R)
    (n e d : nat) (g : Gen) :
  let l := GraphVAE_set_training b (GraphVAE_init in_channels c h p w) in
  wfT ei -> shape ei = [2; e] -> index_okb h ei = true ->
  shape Q = [n; h; c] -> shape K = [n; h; c] -> shape V = [n; h; c] ->
  d < h ->
  (forall e', e' < e -> get 0%Z ei [1; e'] <> Z.of_nat d) ->
  exists out g',
    propagate l ei Q K V g = (Ok out, g')
    /\ shape out = [n; h; c]
    /\ forall i k, i < n -> k < c -> get 0%R out [i; d; k] = 0%R.
Proof.
  intros l W Hs Hb HQ HK HV Hd Hno.
  destruct (@propagate_scatter l ei Q K V n h c e g eq_refl
              W Hs Hb HQ HK HV) as (msg & g' & Sm & Hp).
  eexists. exists g'. split; [exact Hp|]. split; [reflexivity|].
  intros i k Hi Hk.
  rewrite get_tabulate by (apply in_rangeb3; assumption).
  apply rsum_zero.
  intros v Hin. apply in_map_iff in Hin. destruct Hin as [e' [<- He']].
  apply in_seq in He'. simpl nth.
  destruct (Z.eqb_spec (get 0%Z ei [1; e']) (Z.of_nat d)) as [E|_];
    [|reflexivity].
  exfalso. apply (Hno e'); [lia|exact E].
Qed.

(** ** [GraphVAE.forward]: what it needs and what it returns *)

(** X8: a layer as [GraphVAE(in_channels, out_channels, heads)] builds it,
    in either mode, completes [forward] on an [N x in_channels] input and
    returns an [N x out_channels] tensor when [in_channels] is
    [out_channels] or 1 and every entry of the [2 x E] [edge_index] is a
    non-negative index below [heads]. *)
Theorem GraphVAE_forward_succeeds (in_channels c h : nat) (p : R)
    (w : LayerInit) (b : bool) (x : tensor R) (ei : tensor Z) (n e : nat)
    (g : Gen) :
  0 < h * c ->
  shape x = [n; in_channels] ->
  in_channels = c \/ in_channels = 1 ->
  wfT ei -> shape ei = [2; e] -> index_okb h ei = true ->
  exists y g',
    GraphVAE_forward
      (GraphVAE_set_training b (GraphVAE_init in_channels c h p w)) x ei g
    = (Ok y, g')
    /\ shape y = [n; c].
Proof.
  intros Hpos Hx Hres W Hs Hb.
  apply (@GraphVAE_forward_ok in_channels
           (GraphVAE_set_training b (GraphVAE_init in_channels c h p w))
           x ei n e g (GraphVAE_init_wf in_channels c h p w b)
           eq_refl Hpos Hx Hres W Hs Hb).
Qed.

Lemma view_infer_shape {A} (t t' : tensor A) (rest : list nat) :
  view_infer t rest = Ok t' -> exists m, shape t' = m :: rest.
Proof.
  unfold view_infer. destruct (_ && _); [|discriminate].
  intros H. injection H as <-. eexists. reflexivity.
Qed.

Lemma index_select_inv (t y : tensor R) (dim : nat) (index : tensor Z) :
  index_select t dim index = Ok y ->
  index_okb (nth dim (shape t) 0) index = true.
Proof.
  unfold index_select. destruct (shape index) as [|e [|]]; try discriminate.
  destruct (dim <? rank t); [|discriminate].
  destruct (index_okb _ index); [reflexivity|discriminate].
Qed.

Lemma index_okb_row (ei : tensor Z) (e r bound k : nat) :
  index_okb bound (tabulate [e] (fun idx => get 0%Z ei (r :: idx))) = true ->
  k < e ->
  (0 <= get 0%Z ei [r; k] < Z.of_nat bound)%Z.
Proof.
  unfold index_okb. rewrite forallb_forall. intros H Hk.
  assert (Hin : In (get 0%Z ei [r; k])
                  (data (tabulate [e] (fun idx => get 0%Z ei (r :: idx))))).
  { rewrite <- (get_row ei r Hk). unfold get at 1.
    apply nth_In. rewrite wfT_tabulate. apply ravel_lt.
    simpl. apply Nat.ltb_lt in Hk. rewrite Hk. reflexivity. }
  specialize (H _ Hin). apply andb_prop in H. destruct H as [H1 H2].
  apply Z.leb_le in H1. apply Z.ltb_lt in H2. lia.
Qed.

Lemma lift_ok_inv {A B} (r : res A) (k : A -> M B) (g : Gen) :
  is_ok (fst (bind (lift r) k g)) = true ->
  exists a, r = Ok a /\ is_ok (fst (k a g)) = true.
Proof.
  intros H. apply bind_ok_inv in H. destruct H as (a & g1 & Ha & H).
  apply lift_inv in Ha. destruct Ha as [-> ->]. exists a. auto.
Qed.

Lemma lift_raise_not_ok {A} (e : exn) (g : Gen) :
  is_ok (fst (lift (A := A) (Raise e) g)) = true -> False.
Proof. discriminate. Qed.

Lemma propagate_ok_inv (l : GraphVAE) (ei : tensor Z) (Q K V : tensor R)
    (n n' h : nat) (c : nat) (g : Gen) :
  node_dim l = (-2)%Z ->
  shape Q = [n; h; c] -> shape K = [n'; h; c] ->
  is_ok (fst (propagate l ei Q K V g)) = true ->
  exists e,
    shape ei = [2; e]
    /\ forall s t, In (s, t) (edges_of ei) ->
         (0 <= s < Z.of_nat h)%Z /\ (0 <= t < Z.of_nat h)%Z.
Proof.
  intros Hnd HQ HK. unfold propagate.
  destruct (shape ei) as [|a [|e [|? ?]]] eqn:Hs; intros H;
    try (exfalso; exact (@lift_raise_not_ok _ _ _ H));
    (destruct a as [|[|[|a]]];
     try (exfalso; exact (@lift_raise_not_ok _ _ _ H))).
  cbv beta iota in H.
  rewrite (select0_row ei Hs (r := 1)) in H by lia.
  rewrite (select0_row ei Hs (r := 0)) in H by lia.
  rewrite !bind_lift_ok in H.
  unfold rank in H. rewrite HQ, HK, Hnd in H.
  change (norm_dim (length [n; h; c]) (-2)) with (Ok (A := nat) 1) in H.
  change (norm_dim (length [n'; h; c]) (-2)) with (Ok (A := nat) 1) in H.
  rewrite bind_lift_ok in H.
  apply lift_ok_inv in H. destruct H as (Q_i & HQi & H).
  rewrite bind_lift_ok in H.
  apply lift_ok_inv in H. destruct H as (K_j & HKj & _).
  apply index_select_inv in HQi. apply index_select_inv in HKj.
  rewrite HQ in HQi. rewrite HK in HKj. simpl nth in HQi, HKj.
  exists e. split; [reflexivity|].
  intros s t Hin. unfold edges_of in Hin. rewrite Hs in Hin.
  apply in_map_iff in Hin. destruct Hin as (k & Ek & Hk).
  apply in_seq in Hk. injection Ek as <- <-.
  split.
  - apply (index_okb_row ei 0 h HKj). lia.
  - apply (index_okb_row ei 1 h HQi). lia.
Qed.

(** X9: a layer as [GraphVAE.__init__] builds it only completes [forward]
    when [edge_index] is [2 x E] and both endpoints of every edge are
    non-negative indices below the number of heads: the node indices are
    looked up along the head axis. *)
Theorem GraphVAE_forward_needs_indices_below_heads (in_channels c h : nat)
    (p : R) (w : LayerInit) (b : bool) (x : tensor R) (ei : tensor Z)
    (g : Gen) :
  is_ok (fst (GraphVAE_forward
                (GraphVAE_set_training b (GraphVAE_init in_channels c h p w))
                x ei g)) = true ->
  exists e,
    shape ei = [2; e]
    /\ forall s t, In (s, t) (edges_of ei) ->
         (0 <= s < Z.of_nat h)%Z /\ (0 <= t < Z.of_nat h)%Z.
Proof.
  intros H. unfold GraphVAE_forward in H.
  apply lift_ok_inv in H. destruct H as (q & _ & H).
  apply lift_ok_inv in H. destruct H as (Q & HQ & H).
  apply lift_ok_inv in H. destruct H as (k & _ & H).
  apply lift_ok_inv in H. destruct H as (K & HK & H).
  apply lift_ok_inv in H. destruct H as (v & _ & H).
  apply lift_ok_inv in H. destruct H as (V & _ & H).
  apply bind_ok_inv in H. destruct H as (out & g1 & Hp & _).
  apply view_infer_shape in HQ. destruct HQ as (n & SQ).
  apply view_infer_shape in HK. destruct HK as (n' & SK).
  apply (@propagate_ok_inv
           (GraphVAE_set_training b (GraphVAE_init in_channels c h p w))
           ei Q K V n n' h c g eq_refl SQ SK).
  rewrite Hp. reflexivity.
Qed.

(** X10: on a [2 x 0] [edge_index] (no edge at all) the layer returns the
    residual-only path, the normalised sum of the projected zero aggregate
    and the input, whatever its query, key and value projections and in
    either mode. *)
Theorem GraphVAE_forward_without_edges (in_channels c h : nat) (p : R)
    (w : LayerInit) (b : bool) (x : tensor R) (n : nat) (g : Gen) :
  0 < h * c ->
  shape x = [n; in_channels] ->
  fst (GraphVAE_forward
         (GraphVAE_set_training b (GraphVAE_init in_channels c h p w))
         x (mkT [2; 0] []) g)
  = residual_only
      (GraphVAE_set_training b (GraphVAE_init in_channels c h p w)) x.
Proof.
  intros Hpos Hx.
  apply (@GraphVAE_forward_no_edges in_channels
           (GraphVAE_set_training b (GraphVAE_init in_channels c h p w))
           x n g (GraphVAE_init_wf in_channels c h p w b) eq_refl Hpos Hx).
Qed.

(** ** [VAE_GNN]: the encoder stack, the decoder and [forward] *)

Lemma apply_layers_make_layers (mode : bool) (ei : tensor Z) (e hidden : nat) :
  0 < hidden ->
  wfT ei -> shape ei = [2; e] -> index_okb default_heads ei = true ->
  forall (L in_channels : nat) (w : nat -> LayerInit) (x : tensor R) (n : nat)
         (g : Gen),
    shape x = [n; in_channels] ->
    in_channels = hidden \/ in_channels = 1 ->
    exists y g',
      apply_layers
        (map (GraphVAE_set_training mode)
           (make_layers L in_channels hidden w)) x ei g
      = (Ok y, g')
      /\ shape y = [n; match L with O => in_channels | S _ => hidden end].
Proof.
  intros Hh W Hs Hb.
  induction L as [|L IH]; intros in_channels w x n g Hx Hres.
  - simpl. exists x, g. split; [reflexivity|exact Hx].
  - simpl make_layers. simpl map. simpl apply_layers.
    assert (Hpos : 0 < default_heads * hidden)
      by (unfold default_heads; lia).
    destruct (@GraphVAE_forward_ok in_channels
                (GraphVAE_set_training mode
                   (GraphVAE_init in_channels hidden default_heads
                      default_dropout (w 0)))
                x ei n e g
                (GraphVAE_init_wf in_channels hidden default_heads
                   default_dropout (w 0) mode)
                eq_refl Hpos Hx Hres W Hs Hb) as (y1 & g1 & H1 & S1).
    erewrite bind_run by exact H1.
    destruct (IH hidden (fun k => w (S k)) y1 n g1 S1 (or_introl eq_refl))
      as (y & g' & Hy & Sy).
    exists y, g'. split; [exact Hy|].
    rewrite Sy. destruct L; reflexivity.
Qed.

Lemma linear_init_ok (in_f out_f : nat) (w : nat -> nat -> R) (b : nat -> R)
    (x : tensor R) (n : nat) :
  shape x = [n; in_f] ->
  exists y, linear (Linear_init in_f out_f w b) x = Ok y
            /\ shape y = [n; out_f].
Proof.
  intros Hx.
  assert (Wl : wf_Linear in_f out_f (Linear_init in_f out_f w b))
    by (split; reflexivity).
  assert (Rx : rev (shape x) = in_f :: [n]) by (rewrite Hx; reflexivity).
  destruct (@linear_ok _ _ _ x _ Wl Rx) as (y & Hy & Sy).
  exists y. auto.
Qed.

Lemma linear_init_raises (in_f out_f : nat) (w : nat -> nat -> R) (b : nat -> R)
    (x : tensor R) (n d : nat) :
  shape x = [n; d] -> d <> in_f ->
  linear (Linear_init in_f out_f w b) x = Raise RuntimeError.
Proof.
  intros Hx Hd. unfold linear.
  change (shape (weight (Linear_init in_f out_f w b))) with [out_f; in_f].
  rewrite Hx. change (rev [n; d]) with [d; n]. cbv beta iota.
  destruct (Nat.eqb_spec d in_f); [contradiction|reflexivity].
Qed.

Lemma encode_init_ok (in_channels hidden latent L : nat) (w : nat -> LayerInit)
    (wmu wlogvar wdecode wout : LinearInit) (mode : bool)
    (x : tensor R) (ei : tensor Z) (n e : nat) (g : Gen) :
  0 < hidden ->
  shape x = [n; in_channels] ->
  in_channels = hidden \/ (in_channels = 1 /\ 0 < L) ->
  wfT ei -> shape ei = [2; e] -> index_okb default_heads ei = true ->
  exists mu logvar g',
    encode (VAE_GNN_train mode
              (VAE_GNN_init in_channels hidden latent L w
                 wmu wlogvar wdecode wout)) x ei g
    = (Ok (mu, logvar), g')
    /\ shape mu = [n; latent] /\ shape logvar = [n; latent].
Proof.
  intros Hh Hx Hres W Hs Hb. unfold encode.
  simpl layers. simpl fc_mu. simpl fc_logvar.
  assert (Hres' : in_channels = hidden \/ in_channels = 1)
    by (destruct Hres as [?|[? _]]; auto).
  destruct (@apply_layers_make_layers mode ei e hidden Hh W Hs Hb
              L in_channels w x n g Hx Hres') as (y & g' & Hy & Sy).
  erewrite bind_run by exact Hy.
  assert (Sy' : shape y = [n; hidden]).
  { rewrite Sy. destruct L; [|reflexivity].
    destruct Hres as [->|[_ HL]]; [reflexivity|lia]. }
  destruct (@linear_init_ok hidden latent (w_init wmu) (b_init wmu) y n Sy')
    as (mu & Hmu & Smu).
  destruct (@linear_init_ok hidden latent (w_init wlogvar) (b_init wlogvar) y n Sy')
    as (lv & Hlv & Slv).
  rewrite Hmu, bind_lift_ok, Hlv, bind_lift_ok.
  exists mu, lv, g'. auto.
Qed.

(** X12: for a model as [VAE_GNN.__init__] builds it, in either mode,
    [encode] succeeds on an [N x in_channels] input whose [in_channels] is
    [hidden_channels], or 1 with at least one layer, and whose [2 x E]
    [edge_index] has all entries below the 4 default heads; mean and
    log-variance both have shape [N x latent_dim]: one latent row per node,
    no pooling over the graph. *)
Theorem encode_succeeds (in_channels hidden latent L : nat)
    (w : nat -> LayerInit) (wmu wlogvar wdecode wout : LinearInit)
    (mode : bool) (x : tensor R) (ei : tensor Z) (n e : nat) (g : Gen) :
  0 < hidden ->
  shape x = [n; in_channels] ->
  in_channels = hidden \/ (in_channels = 1 /\ 0 < L) ->
  wfT ei -> shape ei = [2; e] -> index_okb default_heads ei = true ->
  exists mu logvar g',
    encode (VAE_GNN_train mode
              (VAE_GNN_init in_channels hidden latent L w
                 wmu wlogvar wdecode wout)) x ei g
    = (Ok (mu, logvar), g')
    /\ shape mu = [n; latent] /\ shape logvar = [n; latent].
Proof. apply encode_init_ok. Qed.

Lemma decode_init_ok (in_channels hidden latent L : nat) (w : nat -> LayerInit)
    (wmu wlogvar wdecode wout : LinearInit) (mode : bool)
    (z : tensor R) (n : nat) :
  shape z = [n; latent] ->
  exists out,
    decode (VAE_GNN_train mode
              (VAE_GNN_init in_channels hidden latent L w
                 wmu wlogvar wdecode wout)) z = Ok out
    /\ shape out = [n; 1].
Proof.
  intros Hz. unfold decode. simpl fc_decode. simpl fc_out.
  destruct (@linear_init_ok latent hidden (w_init wdecode) (b_init wdecode) z n Hz)
    as (hh & Hh & Sh).
  rewrite Hh. simpl res_bind.
  destruct (@linear_init_ok hidden 1 (w_init wout) (b_init wout)
              (tmap relu hh) n Sh) as (out & Ho & So).
  exists out. auto.
Qed.

(** X13: the decoder of a model as [VAE_GNN.__init__] builds it maps an
    [N x latent_dim] latent to an [N x 1] output, one scalar per row, and
    raises [RuntimeError] on an [N x d] input with [d] other than
    [latent_dim]. *)
Theorem decode_shape (in_channels hidden latent L : nat)
    (w : nat -> LayerInit) (wmu wlogvar wdecode wout : LinearInit)
    (mode : bool) (z : tensor R) (n d : nat) :
  shape z = [n; d] ->
  let m := VAE_GNN_train mode
             (VAE_GNN_init in_channels hidden latent L w
                wmu wlogvar wdecode wout) in
  (d = latent -> exists out, decode m z = Ok out /\ shape out = [n; 1])
  /\ (d <> latent -> decode m z = Raise RuntimeError).
Proof.
  intros Hz m. split.
  - intros ->. apply decode_init_ok. exact Hz.
  - intros Hd. unfold decode, m. simpl fc_decode.
    rewrite (@linear_init_raises latent hidden _ _ z n d Hz Hd). reflexivity.
Qed.

Lemma reparameterize_ok (mu logvar : tensor R) (g : Gen) :
  shape logvar = shape mu ->
  exists z,
    reparameterize mu logvar g = (Ok z, advance (numel (shape mu)) g)
    /\ shape z = shape mu.
Proof.
  intros Esh. unfold reparameterize, bind, randn, lift, mul, add.
  set (std := tmap (fun v => exp (0.5 * v))%R logvar).
  assert (Sstd : shape std = shape mu) by exact Esh.
  rewrite Sstd.
  set (eps := mkT (shape mu) _).
  rewrite (binop_same_shape Rmult eps std) by exact Sstd.
  simpl shape.
  set (es := tabulate (shape mu) _).
  rewrite (binop_same_shape Rplus mu es) by reflexivity.
  eexists. split; reflexivity.
Qed.

(** X14: on the inputs of X12, [VAE_GNN.forward] of a model as
    [VAE_GNN.__init__] builds it runs the encoder, the sampling step and the
    decoder without raising, and returns [None]. *)
Theorem VAE_GNN_forward_completes (in_channels hidden latent L : nat)
    (w : nat -> LayerInit) (wmu wlogvar wdecode wout : LinearInit)
    (mode : bool) (x : tensor R) (ei : tensor Z) (n e : nat) (g : Gen) :
  0 < hidden ->
  shape x = [n; in_channels] ->
  in_channels = hidden \/ (in_channels = 1 /\ 0 < L) ->
  wfT ei -> shape ei = [2; e] -> index_okb default_heads ei = true ->
  exists g',
    VAE_GNN_forward
      (VAE_GNN_train mode
         (VAE_GNN_init in_channels hidden latent L w
            wmu wlogvar wdecode wout)) x ei g
    = (Ok PyNone, g').
Proof.
  intros Hh Hx Hres W Hs Hb.
  destruct (@encode_init_ok in_channels hidden latent L w wmu wlogvar wdecode
              wout mode x ei n e g Hh Hx Hres W Hs Hb)
    as (mu & lv & g1 & He & Smu & Slv).
  unfold VAE_GNN_forward.
  erewrite bind_run by exact He. simpl fst. simpl snd.
  destruct (@reparameterize_ok mu lv g1 (eq_trans Slv (eq_sym Smu)))
    as (z & Hz & Sz).
  erewrite bind_run by exact Hz.
  destruct (@decode_init_ok in_channels hidden latent L w wmu wlogvar wdecode
              wout mode z n (eq_trans Sz Smu)) as (out & Ho & _).
  rewrite Ho, bind_lift_ok. eexists. reflexivity.
Qed.

(** ** [generate_molecule]: the samples *)

Lemma advance_advance (a b : nat) (g : Gen) :
  advance a (advance b g) = advance (b + a) g.
Proof. unfold advance. simpl. f_equal. lia. Qed.

Lemma advance_0 (g : Gen) : advance 0 g = g.
Proof. destruct g as [nd kd c]. unfold advance. simpl. f_equal. lia. Qed.

Lemma randn_sample_latent (latent : nat) (g : Gen) :
  randn [1; latent] g = (Ok (sample_latent latent g 0), advance latent g).
Proof.
  unfold randn, sample_latent.
  replace (numel [1; latent]) with latent by (simpl; lia).
  f_equal. f_equal. f_equal. apply map_seq_ext. intros j _. f_equal. lia.
Qed.

Lemma sample_latent_advance (latent : nat) (g : Gen) (k : nat) :
  sample_latent latent (advance latent g) k = sample_latent latent g (S k).
Proof.
  unfold sample_latent, advance. simpl. f_equal.
  apply map_seq_ext. intros j _. f_equal. lia.
Qed.

Lemma VAE_GNN_train_train (b b' : bool) (m : VAE_GNN) :
  VAE_GNN_train b (VAE_GNN_train b' m) = VAE_GNN_train b m.
Proof.
  unfold VAE_GNN_train. simpl. f_equal. rewrite map_map.
  apply map_ext. intros l. reflexivity.
Qed.

Lemma sample_loop_spec (in_channels hidden latent L : nat)
    (w : nat -> LayerInit) (wmu wlogvar wdecode wout : LinearInit)
    (mode : bool) :
  let m := VAE_GNN_train mode
             (VAE_GNN_init in_channels hidden latent L w
                wmu wlogvar wdecode wout) in
  forall (n : nat) (samples : list (tensor R)) (g : Gen),
  exists out,
    sample_loop m n samples g = (Ok (samples ++ out), advance (n * latent) g)
    /\ length out = n
    /\ forall k, k < n ->
         decode m (sample_latent latent g k) = Ok (nth k out (mkT [] []))
         /\ shape (nth k out (mkT [] [])) = [1; 1].
Proof.
  intros m. subst m. induction n as [|n IH]; intros samples g.
  - exists []. simpl. rewrite app_nil_r, advance_0.
    split; [reflexivity|]. split; [reflexivity|]. intros k Hk. lia.
  - cbn [sample_loop].
    change (out_features (fc_mu _)) with latent.
    erewrite bind_run by apply randn_sample_latent.
    destruct (@decode_init_ok in_channels hidden latent L w wmu wlogvar
                wdecode wout mode (sample_latent latent g 0) 1 eq_refl)
      as (s0 & Hs0 & Ss0).
    rewrite Hs0, bind_lift_ok.
    destruct (IH (samples ++ [s0]) (advance latent g)) as (out & Ho & Lo & Hk).
    exists (s0 :: out). rewrite Ho, advance_advance, <- app_assoc.
    split; [reflexivity|]. split; [simpl; lia|].
    intros [|k] Hlt.
    + simpl nth. auto.
    + simpl nth. rewrite <- sample_latent_advance. apply Hk. lia.
Qed.

(** X15: in a model as [VAE_GNN.__init__] builds it, [generate_molecule]
    with an integer [num_samples] returns [max(num_samples, 0)] samples, each
    of shape [1 x 1], leaves the model in evaluation mode and advances the
    generator by [latent_dim] draws per sample; the [k]-th sample is the
    decoder applied to the [k]-th block of [latent_dim] normal draws. *)
Theorem generate_molecule_samples (in_channels hidden latent L : nat)
    (w : nat -> LayerInit) (wmu wlogvar wdecode wout : LinearInit)
    (mode : bool) (num_samples : Z) (g : Gen) :
  let m := VAE_GNN_train mode
             (VAE_GNN_init in_channels hidden latent L w
                wmu wlogvar wdecode wout) in
  exists samples,
    generate_molecule m (PyInt num_samples) g
    = (Ok samples, VAE_GNN_eval m, advance (Z.to_nat num_samples * latent) g)
    /\ length samples = Z.to_nat num_samples
    /\ forall k, k < Z.to_nat num_samples ->
         shape (nth k samples (mkT [] [])) = [1; 1]
         /\ decode (VAE_GNN_eval m) (sample_latent latent g k)
            = Ok (nth k samples (mkT [] [])).
Proof.
  intros m.
  destruct (@sample_loop_spec in_channels hidden latent L w wmu wlogvar
              wdecode wout false (Z.to_nat num_samples) [] g)
    as (out & Ho & Lo & Hk).
  exists out. unfold generate_molecule, VAE_GNN_eval. subst m.
  rewrite VAE_GNN_train_train, Ho. simpl fst. simpl snd.
  split; [reflexivity|]. split; [exact Lo|].
  intros k Hlt. destruct (Hk k Hlt) as [Hd Hsh]. auto.
Qed.

(** X16: no sample affects another.  The [k]-th sample is the same in two
    calls of [generate_molecule], whatever their [num_samples] and whatever
    else their generators hold, as soon as the generators agree on the
    [k]-th block of [latent_dim] normal draws. *)
Theorem generate_molecule_samples_independent (in_channels hidden latent L : nat)
    (w : nat -> LayerInit) (wmu wlogvar wdecode wout : LinearInit)
    (mode : bool) (n n' : Z) (g g' : Gen) (k : nat) :
  let m := VAE_GNN_train mode
             (VAE_GNN_init in_channels hidden latent L w
                wmu wlogvar wdecode wout) in
  k < Z.to_nat n -> k < Z.to_nat n' ->
  (forall j, j < latent ->
     normal_draw g (cursor g + k * latent + j)
     = normal_draw g' (cursor g' + k * latent + j)) ->
  nth k (samples_of (generate_molecule m (PyInt n) g)) (mkT [] [])
  = nth k (samples_of (generate_molecule m (PyInt n') g')) (mkT [] []).
Proof.
  intros m Hk Hk' Hd.
  destruct (@sample_loop_spec in_channels hidden latent L w wmu wlogvar
              wdecode wout false (Z.to_nat n) [] g) as (out & Ho & _ & Ha).
  destruct (@sample_loop_spec in_channels hidden latent L w wmu wlogvar
              wdecode wout false (Z.to_nat n') [] g') as (out' & Ho' & _ & Ha').
  unfold samples_of, generate_molecule, VAE_GNN_eval. subst m.
  rewrite VAE_GNN_train_train, Ho, Ho'. simpl fst.
  destruct (Ha k Hk) as [E _]. destruct (Ha' k Hk') as [E' _].
  assert (Hl : sample_latent latent g k = sample_latent latent g' k).
  { unfold sample_latent. f_equal. apply map_seq_ext. exact Hd. }
  rewrite Hl in E. rewrite E in E'. injection E' as E'. exact E'.
Qed.

(** ** [train]: what the loop can and cannot do *)

Lemma VAE_GNN_forward_value (m : VAE_GNN) (x : tensor R) (ei : tensor Z)
    (g g' : Gen) (v : pyval) :
  VAE_GNN_forward m x ei g = (Ok v, g') -> v = PyNone.
Proof.
  unfold VAE_GNN_forward. unfold bind at 1.
  destruct (encode m x ei g) as [[ml|e] g1]; [|discriminate].
  unfold bind at 1.
  destruct (reparameterize (fst ml) (snd ml) g1) as [[z|e] g2]; [|discriminate].
  unfold bind, lift, ret.
  destruct (decode m z) as [out|e]; [|discriminate].
  intros H. injection H as <- _. reflexivity.
Qed.

Section TrainProperties.

Variable Opt : Type.
Variable zero_grad : Opt -> Opt.
Variable backward_step :
  Opt -> VAE_GNN -> LoaderItem -> Gen -> R -> pyres unit * (Opt * VAE_GNN).

(** X17: with the notebook's [loss_function] as criterion, [train] on a
    loader that yields at least one batch and with at least one epoch never
    reaches [loss.backward()] and [optimizer.step()]: it raises in the first
    batch, either the exception of the forward pass or [AttributeError]
    (the model's [forward] returns [None], and a batch may lack [mu] or
    [logvar]).  The model is left in training mode with its parameters
    unchanged, the optimizer has seen one [zero_grad()], nothing is
    printed. *)
Theorem train_never_steps (model : VAE_GNN) (data : LoaderItem)
    (rest : list LoaderItem) (optimizer : Opt) (epochs : Z) (g : Gen) :
  (0 < epochs)%Z ->
  exists e st,
    train zero_grad backward_step loss_function_py
      model (data :: rest) optimizer epochs g = (PyRaise e, st)
    /\ ts_model st = VAE_GNN_train true model
    /\ parameters (ts_model st) = parameters model
    /\ ts_opt st = zero_grad optimizer
    /\ ts_log st = []
    /\ (e = AttributeError
        \/ exists e', e = TorchError e'
             /\ fst (VAE_GNN_forward (VAE_GNN_train true model)
                       (Data.x (item_data data))
                       (Data.edge_index (item_data data)) g) = Raise e').
Proof.
  intros He. unfold train.
  destruct (Z.to_nat epochs) as [|n] eqn:En; [lia|].
  simpl train_epochs. simpl ts_model. simpl ts_gen. simpl ts_opt. simpl ts_log.
  destruct (VAE_GNN_forward (VAE_GNN_train true model) (Data.x (item_data data))
              (Data.edge_index (item_data data)) g) as [[out|e'] g'] eqn:Hf.
  - apply VAE_GNN_forward_value in Hf. subst out.
    destruct (item_mu data) as [mu|], (item_logvar data) as [lv|];
      simpl; eexists; eexists;
      (split; [reflexivity|]); simpl;
      repeat split; try apply parameters_train; left; reflexivity.
  - simpl. eexists. eexists. split; [reflexivity|]. simpl.
    repeat split; try apply parameters_train.
    right. exists e'. auto.
Qed.

Variable criterion : pyval -> tensor R -> tensor R -> tensor R -> pyres R.

(** X18: the edge cases of the two loops, for every criterion and
    optimizer.  With no epoch to run ([epochs <= 0]) [train] only switches
    the model to training mode.  With an empty loader and at least one
    epoch it raises [ZeroDivisionError] when it averages the loss of the
    first epoch, before anything is printed. *)
Theorem train_edge_cases (model : VAE_GNN) (loader : list LoaderItem)
    (optimizer : Opt) (epochs : Z) (g : Gen) :
  ((epochs <= 0)%Z ->
   train zero_grad backward_step criterion model loader optimizer epochs g
   = (PyOk tt, mkTrainState (VAE_GNN_train true model) optimizer g []))
  /\ ((0 < epochs)%Z -> loader = [] ->
      train zero_grad backward_step criterion model loader optimizer epochs g
      = (PyRaise ZeroDivisionError,
         mkTrainState (VAE_GNN_train true model) optimizer g [])).
Proof.
  unfold train. split.
  - intros He. replace (Z.to_nat epochs) with 0 by lia. reflexivity.
  - intros He ->. destruct (Z.to_nat epochs) as [|n] eqn:En; [lia|].
    reflexivity.
Qed.

Lemma train_batches_None (loader : list LoaderItem) :
  forall (st : TrainState Opt) (total : R),
    train_batches zero_grad backward_step criterion loader st total
    = train_batches zero_grad backward_step
        (fun _ => criterion PyNone) loader st total.
Proof.
  induction loader as [|data rest IH]; intros st total; [reflexivity|].
  simpl.
  destruct (VAE_GNN_forward (ts_model st) (Data.x (item_data data))
              (Data.edge_index (item_data data)) (ts_gen st))
    as [[out|e] g'] eqn:Hf; [|reflexivity].
  apply VAE_GNN_forward_value in Hf. subst out.
  destruct (item_mu data) as [mu|]; [|reflexivity].
  destruct (item_logvar data) as [lv|]; [|reflexivity].
  destruct (criterion PyNone _ mu lv) as [loss|e]; [|reflexivity].
  destruct (fst (backward_step _ _ _ _ loss)); [apply IH|reflexivity].
Qed.

(** X19: whatever the criterion, [train] only ever calls it with [None]
    as reconstruction: replacing the criterion by one that ignores its
    first argument and takes [None] instead changes nothing. *)
Theorem train_criterion_gets_None (model : VAE_GNN) (loader : list LoaderItem)
    (optimizer : Opt) (epochs : Z) (g : Gen) :
  train zero_grad backward_step criterion model loader optimizer epochs g
  = train zero_grad backward_step (fun _ => criterion PyNone)
      model loader optimizer epochs g.
Proof.
  unfold train. generalize (mkTrainState (VAE_GNN_train true model) optimizer g []).
  induction (Z.to_nat epochs) as [|n IH]; intros st; [reflexivity|].
  simpl. rewrite train_batches_None.
  destruct (train_batches _ _ _ loader st 0%R) as [[total|e] st'];
    [|reflexivity].
  destruct loader; [reflexivity|]. apply IH.
Qed.

End TrainProperties.

(** ** [reparameterize]: shapes that differ *)

(** X20: [reparameterize] draws one normal sample per entry of [logvar]
    before it adds anything, so the generator advances by that many draws
    whether or not the call raises; it raises, with [RuntimeError], exactly
    when the shapes of [mu] and [logvar] do not broadcast, and otherwise
    returns a tensor of the broadcast shape. *)
Theorem reparameterize_effects (mu logvar : tensor R) (g : Gen) :
  snd (reparameterize mu logvar g) = advance (numel (shape logvar)) g
  /\ match broadcast_shapes (shape mu) (shape logvar) with
     | Some sh => exists z, fst (reparameterize mu logvar g) = Ok z
                            /\ shape z = sh
     | None => fst (reparameterize mu logvar g) = Raise RuntimeError
     end.
Proof.
  unfold reparameterize, bind, randn, lift, mul, add.
  set (std := tmap (fun v => exp (0.5 * v))%R logvar).
  change (shape std) with (shape logvar).
  set (eps := mkT (shape logvar) _).
  rewrite (binop_same_shape Rmult eps std) by reflexivity.
  simpl shape.
  set (es := tabulate (shape logvar) _).
  unfold binop. change (shape es) with (shape logvar).
  destruct (broadcast_shapes (shape mu) (shape logvar)) as [sh|].
  - split; [reflexivity|]. eexists. split; reflexivity.
  - split; reflexivity.
Qed.

(** ** [loss_function] on targets that are not probabilities *)

Lemma bce_logit_upper (v t : R) :
  (0 <= v)%R -> (bce_logit v t <= (1 - t) * v + 1)%R.
Proof.
  intros Hv. unfold bce_logit.
  assert (He : (exp (- v) <= 1)%R).
  { destruct (Req_dec v 0) as [->|Hne].
    - rewrite Ropp_0, exp_0. lra.
    - rewrite <- exp_0. left. apply exp_increasing. lra. }
  pose proof (exp_pos (- v)) as Hp.
  pose proof (exp_ineq1 1 ltac:(lra)) as H2.
  assert (Hl : (ln (1 + exp (- v)) < 1)%R).
  { rewrite <- (ln_exp 1) at 2. apply ln_increasing; lra. }
  lra.
Qed.

Lemma bce_sum_constant_upper (v : R) (l : list R) :
  (0 <= v)%R -> (forall t, In t l -> (1 <= t)%R) ->
  (rsum (map (fun it => bce_logit (fst it) (snd it))
           (combine (map (fun _ => v) l) l)) <= INR (length l))%R
  /\ forall t0, In t0 l ->
       (rsum (map (fun it => bce_logit (fst it) (snd it))
                (combine (map (fun _ => v) l) l))
        <= (1 - t0) * v + INR (length l))%R.
Proof.
  intros Hv. induction l as [|t l IH]; intros Ht.
  - simpl. split; [lra|]. intros t0 [].
  - assert (Ht' : forall t', In t' l -> (1 <= t')%R)
      by (intros t' H'; apply Ht; right; exact H').
    destruct (IH Ht') as [IH1 IH2].
    pose proof (bce_logit_upper t Hv) as Hu.
    pose proof (Ht t (or_introl eq_refl)) as H1.
    change (length (t :: l)) with (S (length l)). rewrite S_INR.
    simpl map. simpl combine. simpl map. simpl rsum. split.
    + nra.
    + intros t0 [<-|Hin]; [nra|]. specialize (IH2 t0 Hin).
      specialize (Ht' t0 Hin). nra.
Qed.


(** ** The further properties at concrete inputs *)

Lemma KL_term_nonneg_witness :
  exists KL,
    KL_term (mkT [2] [1; 2]%R) (mkT [2] [0; 0]%R) = Ok KL
    /\ (0 <= KL)%R
    /\ ((forall k, k < numel [2] ->
           nth k [1; 2]%R 0%R = 0%R /\ nth k [0; 0]%R 0%R = 0%R)
        -> KL = 0%R).
Proof.
  apply (@KL_term_nonneg (mkT [2] [1; 2]%R) (mkT [2] [0; 0]%R)); reflexivity.
Defined.

Lemma loss_function_nonneg_witness :
  exists L,
    loss_function (mkT [1] [0%R]) (mkT [1] [1%R])
      (mkT [2] [1; 2]%R) (mkT [2] [0; 0]%R) = Ok L
    /\ (0 <= L)%R.
Proof.
  apply (@loss_function_nonneg (mkT [1] [0%R]) (mkT [1] [1%R])
           (mkT [2] [1; 2]%R) (mkT [2] [0; 0]%R)); try reflexivity.
  simpl. intros t [<-|[]]. lra.
Defined.


Lemma propagate_untargeted_slot_zero_witness :
  exists out g',
    propagate (GraphVAE_set_training true
                 (GraphVAE_init 1 1 3 default_dropout init_ones))
      one_bond Q03 Q03 Q03 gen0 = (Ok out, g')
    /\ shape out = [2; 3; 1]
    /\ forall i k, i < 2 -> k < 1 -> get 0%R out [i; 2; k] = 0%R.
Proof.
  apply (@propagate_untargeted_slot_zero 1 1 3 default_dropout init_ones true
           one_bond Q03 Q03 Q03 2 2 2 gen0); try reflexivity.
  - lia.
  - intros [|[|e']] He'; simpl; try lia; discriminate.
Defined.

Lemma GraphVAE_forward_succeeds_witness :
  exists y g',
    GraphVAE_forward
      (GraphVAE_set_training true
         (GraphVAE_init 1 2 default_heads default_dropout init_ones))
      propane_x propane_edge_index gen0
    = (Ok y, g')
    /\ shape y = [3; 2].
Proof.
  apply (@GraphVAE_forward_succeeds 1 2 default_heads default_dropout
           init_ones true propane_x propane_edge_index 3 4 gen0);
    try reflexivity.
  - unfold default_heads. lia.
  - right. reflexivity.
Defined.

Lemma GraphVAE_forward_needs_indices_below_heads_witness :
  exists e,
    shape propane_edge_index = [2; e]
    /\ forall s t, In (s, t) (edges_of propane_edge_index) ->
         (0 <= s < Z.of_nat default_heads)%Z
         /\ (0 <= t < Z.of_nat default_heads)%Z.
Proof.
  apply (@GraphVAE_forward_needs_indices_below_heads 1 2 default_heads
           default_dropout init_ones true propane_x propane_edge_index gen0).
  dropout_active. reflexivity.
Defined.

Lemma GraphVAE_forward_without_edges_witness :
  fst (GraphVAE_forward
         (GraphVAE_set_training true
            (GraphVAE_init 1 2 default_heads default_dropout init_ones))
         propane_x (mkT [2; 0] []) gen0)
  = residual_only
      (GraphVAE_set_training true
         (GraphVAE_init 1 2 default_heads default_dropout init_ones))
      propane_x.
Proof.
  apply (@GraphVAE_forward_without_edges 1 2 default_heads default_dropout
           init_ones true propane_x 3 gen0); [|reflexivity].
  unfold default_heads. lia.
Defined.

Lemma encode_succeeds_witness :
  exists mu logvar g',
    encode (VAE_GNN_train true vae_small) propane_x propane_edge_index gen0
    = (Ok (mu, logvar), g')
    /\ shape mu = [3; 1] /\ shape logvar = [3; 1].
Proof.
  apply (@encode_succeeds 1 2 1 1 (fun _ => init_ones)
           mu_init zero_init zero_init zero_init true
           propane_x propane_edge_index 3 4 gen0); try reflexivity.
  - lia.
  - right. split; [reflexivity|lia].
Defined.

Lemma decode_shape_witness :
  (1 = 1 -> exists out,
     decode (VAE_GNN_train true vae_small) (mkT [2; 1] [0; 0]%R) = Ok out
     /\ shape out = [2; 1])
  /\ (1 <> 1 ->
      decode (VAE_GNN_train true vae_small) (mkT [2; 1] [0; 0]%R)
      = Raise RuntimeError).
Proof.
  apply (@decode_shape 1 2 1 1 (fun _ => init_ones)
           mu_init zero_init zero_init zero_init true
           (mkT [2; 1] [0; 0]%R) 2 1).
  reflexivity.
Defined.

Lemma VAE_GNN_forward_completes_witness :
  exists g',
    VAE_GNN_forward (VAE_GNN_train true vae_small)
      propane_x propane_edge_index gen0
    = (Ok PyNone, g').
Proof.
  apply (@VAE_GNN_forward_completes 1 2 1 1 (fun _ => init_ones)
           mu_init zero_init zero_init zero_init true
           propane_x propane_edge_index 3 4 gen0); try reflexivity.
  - lia.
  - right. split; [reflexivity|lia].
Defined.

Lemma generate_molecule_samples_independent_witness :
  nth 0 (samples_of (generate_molecule (VAE_GNN_train true vae_small)
                       (PyInt 1) gen0)) (mkT [] [])
  = nth 0 (samples_of (generate_molecule (VAE_GNN_train true vae_small)
                         (PyInt 5) gen_keep12)) (mkT [] []).
Proof.
  apply (@generate_molecule_samples_independent 1 2 1 1 (fun _ => init_ones)
           mu_init zero_init zero_init zero_init true
           1 5 gen0 gen_keep12 0).
  - simpl. lia.
  - simpl. lia.
  - intros j Hj. reflexivity.
Defined.

Lemma train_never_steps_witness :
  exists e st,
    train (fun o : unit => o) null_step loss_function_py
      vae_small [propane_item] tt default_epochs gen0 = (PyRaise e, st)
    /\ ts_model st = VAE_GNN_train true vae_small
    /\ parameters (ts_model st) = parameters vae_small
    /\ ts_opt st = tt
    /\ ts_log st = []
    /\ (e = AttributeError
        \/ exists e', e = TorchError e'
             /\ fst (VAE_GNN_forward (VAE_GNN_train true vae_small)
                       (Data.x (item_data propane_item))
                       (Data.edge_index (item_data propane_item)) gen0)
                = Raise e').
Proof.
  apply (@train_never_steps unit (fun o : unit => o) null_step
           vae_small propane_item [] tt default_epochs gen0).
  reflexivity.
Defined.

